(** * redact-docx: the match resolver and the redaction orchestrator

    A shallow embedding of [src/redact.py]: [process_matches] (the match
    resolver), [redact_colors] (the colour lookup) and the per-run,
    per-paragraph and per-document loops of [redact_document].

    Indices into a run's text are [nat] (they are the [start()] and [end()]
    of regular-expression matches); a run's text is a [string]; Python lists
    that are only appended to are Rocq lists extended on the right. *)

From Stdlib Require Import List String Ascii Arith Bool Lia.
Import ListNotations.
Open Scope string_scope.
Open Scope list_scope.
Open Scope nat_scope.

Set Implicit Arguments.

(** ** Python helpers *)

(** [txt[a:b]] for non-negative [a], [b]: empty when [b <= a], clamped at the
    end of the text. *)
Definition slice (a b : nat) (txt : string) : string :=
  substring a (b - a) txt.

(** [txt[a:]]. *)
Definition slice_from (a : nat) (txt : string) : string :=
  substring a (String.length txt - a) txt.

(** [xs.append(x)]. *)
Definition append {A : Type} (xs : list A) (x : A) : list A := xs ++ [x].

(** ** The match resolver: [process_matches] *)

Module Resolver.

(** The names the function body reads and writes.  [match_pairs] is the
    caller's list object (a Python list is passed by reference), [matches]
    and [highlights] are the two lists the function builds, [prev] is the end
    of the span handled last. *)
Record locals : Type := mkLocals {
  match_pairs : list (nat * nat);
  matches : list nat;
  highlights : list bool;
  prev : nat
}.

Definition append_match (x : nat) (st : locals) : locals :=
  mkLocals (match_pairs st) (append (matches st) x) (highlights st) (prev st).

Definition append_highlight (h : bool) (st : locals) : locals :=
  mkLocals (match_pairs st) (matches st) (append (highlights st) h) (prev st).

Definition set_prev (p : nat) (st : locals) : locals :=
  mkLocals (match_pairs st) (matches st) (highlights st) p.

(** [match_pairs[idx]]; every index the function uses is in range. *)
Definition pair_at (st : locals) (idx : nat) : nat * nat :=
  nth idx (match_pairs st) (0, 0).

(** Lines 46-53: the body of [for idx in range(1, len(match_pairs))]. *)
Definition loop_body (st : locals) (idx : nat) : locals :=
  let st :=
    if negb (prev st =? fst (pair_at st idx))
    then append_match (fst (pair_at st idx)) (append_highlight false st)
    else st in
  let st := append_highlight true st in
  let st := append_match (snd (pair_at st idx)) st in
  set_prev (snd (pair_at st idx)) st.

(** Lines 23-58: the state in which the function reaches its [return].
    [matches[-1]] is [last (matches st) 0]: the list is not empty there. *)
Definition run_body (mp : list (nat * nat)) (run_text : string) : locals :=
  let st := mkLocals mp [] [] 0 in
  if 0 <? List.length (match_pairs st) then
    let st :=
      if negb (fst (pair_at st 0) =? 0)
      then append_highlight false (append_match 0 st)
      else st in
    let st := append_match (fst (pair_at st 0)) st in
    let st := append_highlight true st in
    let st := append_match (snd (pair_at st 0)) st in
    let st := set_prev (snd (pair_at st 0)) st in
    let st := fold_left loop_body (seq 1 (List.length (match_pairs st) - 1)) st in
    if negb (last (matches st) 0 =? String.length run_text)
    then append_match (String.length run_text) (append_highlight false st)
    else st
  else st.

(** Line 59: [return highlights, matches]. *)
Definition process_matches (mp : list (nat * nat)) (run_text : string)
  : list bool * list nat :=
  let st := run_body mp run_text in (highlights st, matches st).

End Resolver.

Import Resolver.

(** ** The colour lookup: [redact_colors] *)

(** The members of [docx.enum.text.WD_COLOR_INDEX] the program uses. *)
Inductive WD_COLOR_INDEX : Type := BLACK | WHITE | YELLOW.

(** [docx.shared.RGBColor(r, g, b)]. *)
Record RGBColor : Type := mkRGB { red : nat; green : nat; blue : nat }.

(** [d.get(key, default)] for a dict with string keys, looked up with a
    string or with [None] (which is no key of such a dict). *)
Definition dict_get {V : Type} (d : list (string * V)) (key : option string)
  (default : V) : V :=
  match key with
  | None => default
  | Some k =>
      match find (fun kv => String.eqb (fst kv) k) d with
      | Some kv => snd kv
      | None => default
      end
  end.

Definition switcher : list (string * (RGBColor * WD_COLOR_INDEX)) :=
  [ ("white", (mkRGB 255 255 255, WHITE));
    ("yellow", (mkRGB 255 255 0, YELLOW)) ].

(** Lines 62-74. *)
Definition redact_colors (color : option string) : RGBColor * WD_COLOR_INDEX :=
  dict_get switcher color (mkRGB 0 0 0, BLACK).

(** ** Results of code that may raise *)

Inductive exn : Type :=
| ValueError (msg : string)
| IndexError (msg : string)
| re_error (msg : string).

Inductive outcome (A : Type) : Type :=
| Returned (a : A)
| Raised (e : exn).

Arguments Returned {A} a.
Arguments Raised {A} e.

Definition bind {A B : Type} (m : outcome A) (k : A -> outcome B) : outcome B :=
  match m with
  | Returned a => k a
  | Raised e => Raised e
  end.

(** A statement run on every element in turn, stopping at the first raise. *)
Fixpoint for_each {A : Type} (f : A -> outcome A) (l : list A)
  : outcome (list A) :=
  match l with
  | [] => Returned []
  | x :: rest =>
      bind (f x) (fun x' => bind (for_each f rest) (fun rest' => Returned (x' :: rest')))
  end.

(** The object behind a reference is changed in place: a paragraph's runs are
    a list, a reference to a run is its position in that list. *)
Fixpoint update_at {A : Type} (f : A -> A) (i : nat) (l : list A) : list A :=
  match l, i with
  | [], _ => []
  | x :: rest, 0 => f x :: rest
  | x :: rest, S j => x :: update_at f j rest
  end.

(** [xs[1:-1]]. *)
Definition interior {A : Type} (xs : list A) : list A := removelast (tl xs).

(** ** Runs, the run splitter and the orchestrator *)

Section Model.

(** Every formatting property of a run other than the two the program
    writes. *)
Variable Props : Type.

(** A run of the document model: [run.text], [run.font.highlight_color],
    [run.font.color.rgb] ([None] when the property is not set) and the rest
    of its formatting. *)
Record Run : Type := mkRun {
  text : string;
  highlight_color : option WD_COLOR_INDEX;
  color_rgb : option RGBColor;
  props : Props
}.

Definition set_text (t : string) (r : Run) : Run :=
  mkRun t (highlight_color r) (color_rgb r) (props r).

Definition set_highlight_color (c : WD_COLOR_INDEX) (r : Run) : Run :=
  mkRun (text r) (Some c) (color_rgb r) (props r).

Definition set_color_rgb (c : RGBColor) (r : Run) : Run :=
  mkRun (text r) (highlight_color r) (Some c) (props r).

(** [para.runs]. *)
Definition Paragraph : Type := list Run.

(** Modelled from the spec: [split_run_by] of [run_tools], which is not among
    the sources.  The texts of the runs the splitter produces for the cut
    points [split_by]: [text[0:o1]], [text[o1:o2]], ..., [text[ok:]]. *)
Fixpoint split_texts (txt : string) (start : nat) (split_by : list nat)
  : list string :=
  match split_by with
  | [] => [slice_from start txt]
  | o :: rest => slice start o txt :: split_texts txt o rest
  end.

(** Modelled from the spec: [split_run_by(paragraph, run, split_by)] of
    [run_tools], which is not among the sources.  The run at position [idx]
    keeps its place with its text cut to the first slice; each further slice
    is a new run placed right after the previous one, with every formatting
    property of the original.  The result is the paragraph after the call and
    the references to the [length split_by + 1] runs, in order.  The spec
    states this for cut points strictly increasing and strictly inside the
    text; elsewhere the slices are Python's. *)
Definition split_run_by (para : Paragraph) (idx : nat) (split_by : list nat)
  : Paragraph * list nat :=
  match nth_error para idx with
  | None => (para, [])
  | Some run =>
      let new_runs :=
        map (fun t => set_text t run) (split_texts (text run) 0 split_by) in
      (firstn idx para ++ new_runs ++ skipn (S idx) para,
       seq idx (List.length new_runs))
  end.

(** [re.finditer(pattern, text)] as the list of [(match.start(), match.end())],
    for a pattern that compiles; the regular-expression library is outside
    the program.  The call on a pattern that does not compile, which raises
    [re.error], is in [redact_run_re] below. *)
Variable finditer : string -> string -> list (nat * nat).

(** The run splitter the orchestrator calls. *)
Variable splitter : Paragraph -> nat -> list nat -> Paragraph * list nat.

Variable pattern : list string.
Variable replace_with : option string.
Variable txt_color : RGBColor.
Variable background_color : WD_COLOR_INDEX.

(** Lines 112-117, and the same statements at lines 125-130, on one run. *)
Definition highlight_run (r : Run) : Run :=
  let r := match replace_with with
           | Some s => set_text s r
           | None => r
           end in
  let r := set_highlight_color background_color r in
  set_color_rgb txt_color r.

(** Lines 122-130: the loop over [zip(highlights, new_runs)]. *)
Definition highlight_loop (hs : list bool) (new_runs : list nat)
  (para : Paragraph) : Paragraph :=
  fold_left
    (fun para hr =>
       if (fst hr : bool) then update_at highlight_run (snd hr) para else para)
    (combine hs new_runs) para.

(** Lines 106-130, for the run at [run_index], given what the resolver
    returned.  Line 108 builds a [ValueError] and drops it: there is no
    [raise], so that branch falls through to line 132. *)
Definition apply_plan (hs : list bool) (ms : list nat) (para : Paragraph)
  (run_index : nat) : outcome Paragraph :=
  if (0 <? List.length hs) && (0 <? List.length ms) then
    if negb (List.length hs =? List.length ms - 1) then
      let _ := ValueError "Calculation error within matches and highlights" in
      Returned para
    else
      if List.length ms =? 2 then
        Returned (update_at highlight_run run_index para)
      else
        let '(para, new_runs) := splitter para run_index (interior ms) in
        Returned (highlight_loop hs new_runs para)
  else Returned para.

(** Lines 100-130: one iteration of the [while] loop. *)
Definition redact_run (para : Paragraph) (run_index : nat)
  : outcome Paragraph :=
  match nth_error para run_index with
  | None => Raised (IndexError "list index out of range")
  | Some run =>
      let match_pairs := finditer (String.concat "|" pattern) (text run) in
      let '(hs, ms) := process_matches match_pairs (text run) in
      apply_plan hs ms para run_index
  end.

(** Lines 99-132: [while run_index > -1], with [n = run_index + 1]. *)
Fixpoint redact_runs (n : nat) (para : Paragraph) : outcome Paragraph :=
  match n with
  | 0 => Returned para
  | S run_index =>
      bind (redact_run para run_index) (redact_runs run_index)
  end.

(** Lines 98-132: [run_index = len(para.runs) - 1] and the loop. *)
Definition redact_paragraph (para : Paragraph) : outcome Paragraph :=
  redact_runs (List.length para) para.

End Model.

Arguments mkRun {Props} text highlight_color color_rgb props.

(** Lines 91-132 on a document already loaded ([doc.paragraphs]); loading
    and saving are the document library's. *)
Definition redact_document {Props : Type}
  (finditer : string -> string -> list (nat * nat))
  (splitter : Paragraph Props -> nat -> list nat -> Paragraph Props * list nat)
  (doc : list (Paragraph Props)) (pattern : list string)
  (replace_with : option string) (color : option string)
  : outcome (list (Paragraph Props)) :=
  let '(txt_color, background_color) := redact_colors color in
  for_each
    (redact_paragraph finditer splitter pattern replace_with txt_color
       background_color)
    doc.

(** ** The orchestrator with a matcher that may raise

    The same lines with [re.finditer] as it is called at line 102: it raises
    [re.error] when the joined pattern does not compile, and the exception
    leaves [redact_document] at that point. *)

Section ModelRaising.

Variable Props : Type.

(** [re.finditer(pattern, text)]: the spans, or the exception raised. *)
Variable finditer : string -> string -> outcome (list (nat * nat)).

Variable splitter :
  Paragraph Props -> nat -> list nat -> Paragraph Props * list nat.
Variable pattern : list string.
Variable replace_with : option string.
Variable txt_color : RGBColor.
Variable background_color : WD_COLOR_INDEX.

(** Lines 100-130: one iteration of the [while] loop. *)
Definition redact_run_re (para : Paragraph Props) (run_index : nat)
  : outcome (Paragraph Props) :=
  match nth_error para run_index with
  | None => Raised (IndexError "list index out of range")
  | Some run =>
      bind (finditer (String.concat "|" pattern) (text run))
        (fun match_pairs =>
           let '(hs, ms) := process_matches match_pairs (text run) in
           apply_plan splitter replace_with txt_color background_color hs ms
             para run_index)
  end.

(** Lines 99-132: [while run_index > -1], with [n = run_index + 1]. *)
Fixpoint redact_runs_re (n : nat) (para : Paragraph Props)
  : outcome (Paragraph Props) :=
  match n with
  | 0 => Returned para
  | S run_index =>
      bind (redact_run_re para run_index) (redact_runs_re run_index)
  end.

(** Lines 98-132. *)
Definition redact_paragraph_re (para : Paragraph Props)
  : outcome (Paragraph Props) :=
  redact_runs_re (List.length para) para.

End ModelRaising.

(** Lines 91-132 on a document already loaded. *)
Definition redact_document_re {Props : Type}
  (finditer : string -> string -> outcome (list (nat * nat)))
  (splitter : Paragraph Props -> nat -> list nat -> Paragraph Props * list nat)
  (doc : list (Paragraph Props)) (pattern : list string)
  (replace_with : option string) (color : option string)
  : outcome (list (Paragraph Props)) :=
  let '(txt_color, background_color) := redact_colors color in
  for_each
    (redact_paragraph_re finditer splitter pattern replace_with txt_color
       background_color)
    doc.

(** A run with no colour set and no other formatting, for examples. *)
Definition plain (t : string) : Run unit := mkRun t None None tt.

(** ** A matcher for literal patterns

    What [re.finditer('|'.join(pattern), text)] returns when every pattern is
    a non-empty literal (no metacharacters): at each position the
    alternatives are tried in order, the first one that is a prefix of the
    rest of the text gives a match, and the search goes on after its end. *)

Module Literal.

(** The alternatives of a joined pattern: the pieces between the bars. *)
Fixpoint alternatives (cur : string) (pat : string) : list string :=
  match pat with
  | EmptyString => [cur]
  | String c rest =>
      if Ascii.eqb c "|"%char then cur :: alternatives EmptyString rest
      else alternatives (String.append cur (String c EmptyString)) rest
  end.

(** The length of the first alternative that matches at the head of [txt]. *)
Fixpoint first_alt (alts : list string) (txt : string) : option nat :=
  match alts with
  | [] => None
  | p :: rest =>
      if (0 <? String.length p) && String.prefix p txt
      then Some (String.length p)
      else first_alt rest txt
  end.

(** [pos] is the position of the head of [txt] in the whole text; [skip]
    characters still belong to the match found last. *)
Fixpoint scan (alts : list string) (txt : string) (pos skip : nat)
  : list (nat * nat) :=
  match txt with
  | EmptyString => []
  | String _ txt' =>
      match skip with
      | S k => scan alts txt' (S pos) k
      | 0 =>
          match first_alt alts txt with
          | Some n => (pos, pos + n) :: scan alts txt' (S pos) (n - 1)
          | None => scan alts txt' (S pos) 0
          end
      end
  end.

Definition finditer (pat : string) (txt : string) : list (nat * nat) :=
  scan (alternatives EmptyString pat) txt 0 0.

(** The same matcher with one pattern that does not compile: an opening
    parenthesis on its own, for which [re.finditer] raises [re.error]. *)
Definition finditer_re (pat : string) (txt : string)
  : outcome (list (nat * nat)) :=
  if String.eqb pat "("
  then Raised (re_error "missing ), unterminated subpattern at position 0")
  else Returned (finditer pat txt).

End Literal.

(** ** Vocabulary of the specification *)

(** Neighbouring elements are related by [R]. *)
Fixpoint chain {A : Type} (R : A -> A -> Prop) (l : list A) : Prop :=
  match l with
  | a :: (b :: _) as rest => R a b /\ chain R rest
  | _ => True
  end.

Definition strictly_increasing (l : list nat) : Prop := chain lt l.

(** Spans ordered by start, ascending. *)
Definition ascending_starts (mp : list (nat * nat)) : Prop :=
  chain (fun p q => fst p <= fst q) mp.

(** No span begins before the one before it has ended. *)
Definition non_overlapping (mp : list (nat * nat)) : Prop :=
  chain (fun p q => snd p <= fst q) mp.

(** A span [[start, end)] within [[0, len]]. *)
Definition within (len : nat) (p : nat * nat) : Prop :=
  fst p <= snd p /\ snd p <= len.

(** A span with [start < end]. *)
Definition proper (p : nat * nat) : Prop := fst p < snd p.

(** The number of segments flagged as highlighted. *)
Definition count_true (hs : list bool) : nat :=
  List.length (filter (fun h : bool => h) hs).

(** The segments [[o0,o1); [o1,o2); ...] a list of offsets cuts out. *)
Definition adjacent (offs : list nat) : list (nat * nat) :=
  combine offs (tl offs).

(** What the loop of the resolver appends, as a recursion on the spans that
    are left: the flags and the offsets, given the end of the span before. *)
Fixpoint tail_plan (prev : nat) (rest : list (nat * nat))
  : list bool * list nat :=
  match rest with
  | [] => ([], [])
  | (s, e) :: rest' =>
      let '(hs, ms) := tail_plan e rest' in
      if prev =? s then (true :: hs, e :: ms)
      else (false :: true :: hs, s :: e :: ms)
  end.

(** The text of a run after redaction, in the words of the specification: it
    changes only at the matched spans, each of which reads [repl] when a
    replacement is given. *)
Fixpoint substitute (repl : option string) (txt : string) (pos : nat)
  (spans : list (nat * nat)) : string :=
  match spans with
  | [] => slice pos (String.length txt) txt
  | (s, e) :: rest =>
      String.append (slice pos s txt)
        (String.append
           (match repl with Some r => r | None => slice s e txt end)
           (substitute repl txt e rest))
  end.

Section Expected.

Variable Props : Type.
Variable replace_with : option string.
Variable txt_color : RGBColor.
Variable background_color : WD_COLOR_INDEX.

(** The run that stands for the segment [[a, b)] of [run]: the slice of its
    text under its formatting when the segment is not highlighted, and that
    run redacted when it is. *)
Definition segment_run (run : Run Props) (h : bool) (ab : nat * nat)
  : Run Props :=
  let piece := set_text (slice (fst ab) (snd ab) (text run)) run in
  if h then highlight_run replace_with txt_color background_color piece
  else piece.

(** The runs that take the place of [run] for a segment plan, in the words of
    the specification: [run] itself when nothing matched, and one run per
    segment otherwise. *)
Definition expected_runs (plan : list bool * list nat) (run : Run Props)
  : list (Run Props) :=
  match fst plan with
  | [] => [run]
  | _ :: _ =>
      map (fun hab => segment_run run (fst hab) (snd hab))
        (combine (fst plan) (adjacent (snd plan)))
  end.

End Expected.

(** Strings put end to end. *)
Definition join (l : list string) : string :=
  fold_right String.append EmptyString l.

(** The visible text of a paragraph: the texts of its runs put end to end. *)
Definition visible_text {Props : Type} (para : Paragraph Props) : string :=
  join (map (@text Props) para).

(** The segments of a plan, read off the spans: what the loop and the closing
    test of the resolver add after a span that ended at [prev]. *)
Fixpoint tail_segments (len prev : nat) (rest : list (nat * nat))
  : list (bool * (nat * nat)) :=
  match rest with
  | [] => if prev =? len then [] else [(false, (prev, len))]
  | (s, e) :: rest' =>
      (if prev =? s then [] else [(false, (prev, s))]) ++
      (true, (s, e)) :: tail_segments len e rest'
  end.

(** The segments of a plan, read off the spans: each with its flag. *)
Definition segments (len : nat) (mp : list (nat * nat))
  : list (bool * (nat * nat)) :=
  match mp with
  | [] => []
  | (s, e) :: rest =>
      (if s =? 0 then [] else [(false, (0, s))]) ++
      (true, (s, e)) :: tail_segments len e rest
  end.

(** ** The command line: [main]

    Characters are code points below 256, one [ascii] each. *)

Module Cli.

(** [c.isspace()] for a code point below 256: tab to carriage return, the
    four separators 28-31, the space, NEL and the no-break space. *)
Definition isspace (c : ascii) : bool :=
  let n := nat_of_ascii c in
  ((9 <=? n) && (n <=? 13)) || ((28 <=? n) && (n <=? 31)) ||
  (n =? 32) || (n =? 133) || (n =? 160).

(** [s.lstrip()]. *)
Fixpoint lstrip (s : string) : string :=
  match s with
  | EmptyString => EmptyString
  | String c rest => if isspace c then lstrip rest else s
  end.

(** [s.rstrip()]. *)
Fixpoint rstrip (s : string) : string :=
  match s with
  | EmptyString => EmptyString
  | String c rest =>
      match rstrip rest with
      | EmptyString => if isspace c then EmptyString else String c EmptyString
      | String d rest' => String c (String d rest')
      end
  end.

(** [s.strip()]. *)
Definition strip (s : string) : string := rstrip (lstrip s).

(** [s.split(sep)] for a separator of one character: the pieces between the
    separators, empty pieces included; never an empty list. *)
Fixpoint split (sep : ascii) (s : string) : list string :=
  match s with
  | EmptyString => [EmptyString]
  | String c rest =>
      if Ascii.eqb c sep then EmptyString :: split sep rest
      else match split sep rest with
           | [] => [String c EmptyString]
           | piece :: pieces => String c piece :: pieces
           end
  end.

(** What [parser.parse_args(cmd_argv)] returns: [-i], [-o], [-p] are
    required, [-r] and [-c] default to [None]. *)
Record args : Type := mkArgs {
  input : string;
  output : string;
  patterns : string;
  replace : option string;
  color : option string
}.

(** Line 162: [[x.strip() for x in args.patterns.split(',')]]. *)
Definition parse_patterns (a : args) : list string :=
  map strip (split ","%char (patterns a)).

(** Lines 162-163, on the parsed arguments and the document that
    [Document(args.input)] loads; parsing the command line and the files are
    the libraries'. *)
Definition main {Props : Type}
  (finditer : string -> string -> list (nat * nat))
  (splitter : Paragraph Props -> nat -> list nat -> Paragraph Props * list nat)
  (a : args) (doc : list (Paragraph Props))
  : outcome (list (Paragraph Props)) :=
  redact_document finditer splitter doc (parse_patterns a) (replace a)
    (color a).

End Cli.

(** The character [c] occurs in [s]. *)
Fixpoint has_char (c : ascii) (s : string) : bool :=
  match s with
  | EmptyString => false
  | String d rest => Ascii.eqb d c || has_char c rest
  end.

(** The number of times [c] occurs in [s]. *)
Fixpoint count_char (c : ascii) (s : string) : nat :=
  match s with
  | EmptyString => 0
  | String d rest => (if Ascii.eqb d c then 1 else 0) + count_char c rest
  end.

(** [s] begins with white space. *)
Definition starts_space (s : string) : bool :=
  match s with
  | EmptyString => false
  | String c _ => Cli.isspace c
  end.

(** [s] ends with white space. *)
Fixpoint ends_space (s : string) : bool :=
  match s with
  | EmptyString => false
  | String c EmptyString => Cli.isspace c
  | String _ rest => ends_space rest
  end.

(** No run of the paragraph has a match. *)
Definition no_match {Props : Type}
  (finditer : string -> string -> list (nat * nat)) (pattern : list string)
  (para : Paragraph Props) : Prop :=
  Forall (fun run => finditer (String.concat "|" pattern) (text run) = []) para.

(** * Facts about the match resolver *)

Section ResolverFacts.

Lemma loop_body_eq (st : locals) (idx s e : nat) :
  nth idx (match_pairs st) (0, 0) = (s, e) ->
  loop_body st idx =
  mkLocals (match_pairs st)
    (matches st ++ (if prev st =? s then [e] else [s; e]))
    (highlights st ++ (if prev st =? s then [true] else [false; true]))
    e.
Proof.
  intros Hnth.
  unfold loop_body, pair_at, append_match, append_highlight, set_prev, append.
  simpl. rewrite Hnth. simpl.
  destruct (prev st =? s); simpl; rewrite ?Hnth; simpl;
    rewrite <- ?app_assoc; reflexivity.
Qed.

(** The loop appends [tail_plan] of the spans it walks over, and leaves the
    caller's list as it was. *)
Lemma loop_eq (rest : list (nat * nat)) :
  forall (pre : list (nat * nat)) (st : locals),
    match_pairs st = pre ++ rest ->
    let st' := fold_left loop_body (seq (List.length pre) (List.length rest)) st in
    match_pairs st' = match_pairs st /\
    matches st' = matches st ++ snd (tail_plan (prev st) rest) /\
    highlights st' = highlights st ++ fst (tail_plan (prev st) rest).
Proof.
  induction rest as [| [s e] rest IH]; intros pre st Hmp; simpl.
  - rewrite !app_nil_r. auto.
  - assert (Hnth : nth (List.length pre) (match_pairs st) (0, 0) = (s, e)).
    { rewrite Hmp, app_nth2, Nat.sub_diag by lia. reflexivity. }
    rewrite (loop_body_eq st _ Hnth).
    set (st1 := mkLocals _ _ _ _).
    assert (Hmp1 : match_pairs st1 = (pre ++ [(s, e)]) ++ rest).
    { subst st1. simpl. rewrite Hmp, <- app_assoc. reflexivity. }
    specialize (IH (pre ++ [(s, e)]) st1 Hmp1).
    rewrite length_app in IH. simpl in IH.
    replace (List.length pre + 1) with (S (List.length pre)) in IH by lia.
    destruct IH as (H1 & H2 & H3). rewrite H1, H2, H3. subst st1. simpl.
    destruct (tail_plan e rest) as [hs ms].
    destruct (prev st =? s); simpl; rewrite <- !app_assoc; auto.
Qed.

(** The state at the [return] for a non-empty list, without the loop. *)
Lemma run_body_cons (s e : nat) (rest : list (nat * nat)) (t : string) :
  let hs0 := (if s =? 0 then [] else [false]) ++ true :: fst (tail_plan e rest) in
  let ms0 := (if s =? 0 then [] else [0]) ++ s :: e :: snd (tail_plan e rest) in
  let st := run_body ((s, e) :: rest) t in
  match_pairs st = (s, e) :: rest /\
  (highlights st, matches st) =
  if last ms0 0 =? String.length t then (hs0, ms0)
  else (hs0 ++ [false], ms0 ++ [String.length t]).
Proof.
  unfold run_body, pair_at, append_match, append_highlight, set_prev, append.
  cbn -[fold_left seq last Nat.eqb tail_plan].
  destruct (s =? 0) eqn:Hs; cbn -[fold_left seq last Nat.eqb tail_plan];
    rewrite Nat.sub_0_r;
    match goal with
    | |- context [fold_left loop_body _ ?st0] =>
        destruct (loop_eq rest [(s, e)] st0 eq_refl) as (H1 & H2 & H3);
        cbn -[loop_body tail_plan] in H1, H2, H3;
        set (st' := fold_left loop_body (seq 1 (List.length rest)) st0) in *
    end;
    rewrite H2; destruct (last _ 0 =? String.length t);
    cbn -[tail_plan]; rewrite ?H1, ?H2, ?H3; auto.
Qed.

(** [process_matches] on a non-empty list, without the loop. *)
Lemma process_matches_cons (s e : nat) (rest : list (nat * nat)) (t : string) :
  process_matches ((s, e) :: rest) t =
  let hs0 := (if s =? 0 then [] else [false]) ++ true :: fst (tail_plan e rest) in
  let ms0 := (if s =? 0 then [] else [0]) ++ s :: e :: snd (tail_plan e rest) in
  if last ms0 0 =? String.length t then (hs0, ms0)
  else (hs0 ++ [false], ms0 ++ [String.length t]).
Proof.
  unfold process_matches. exact (proj2 (run_body_cons s e rest t)).
Qed.

(** The caller's list has the same content after the call. *)
Lemma run_body_match_pairs (mp : list (nat * nat)) (t : string) :
  match_pairs (run_body mp t) = mp.
Proof.
  destruct mp as [| [s e] rest]; [reflexivity |].
  exact (proj1 (run_body_cons s e rest t)).
Qed.

Lemma tail_plan_length (rest : list (nat * nat)) :
  forall p, List.length (snd (tail_plan p rest)) =
            List.length (fst (tail_plan p rest)).
Proof.
  induction rest as [| [s e] rest IH]; intros p; simpl; [reflexivity |].
  specialize (IH e). destruct (tail_plan e rest) as [hs ms]. simpl in IH.
  destruct (p =? s); simpl; lia.
Qed.

Lemma tail_plan_count (rest : list (nat * nat)) :
  forall p, count_true (fst (tail_plan p rest)) = List.length rest.
Proof.
  unfold count_true.
  induction rest as [| [s e] rest IH]; intros p; simpl; [reflexivity |].
  specialize (IH e). destruct (tail_plan e rest) as [hs ms]. simpl in IH.
  destruct (p =? s); simpl; lia.
Qed.

End ResolverFacts.

(** ** The shape of a segment plan *)

Section PlanShape.

Lemma count_true_app (l1 l2 : list bool) :
  count_true (l1 ++ l2) = count_true l1 + count_true l2.
Proof. unfold count_true. rewrite filter_app, length_app. reflexivity. Qed.

Lemma last_app_cons {A : Type} (pre : list A) (a : A) (l : list A) (d : A) :
  last (pre ++ a :: l) d = last (a :: l) d.
Proof.
  induction pre as [| b pre IH]; [reflexivity |].
  simpl app. rewrite <- IH. destruct (pre ++ a :: l) eqn:E; [| reflexivity].
  destruct pre; discriminate.
Qed.

Lemma last_cons_default {A : Type} (a : A) (l : list A) (d1 d2 : A) :
  last (a :: l) d1 = last (a :: l) d2.
Proof.
  revert a. induction l as [| b l IH]; intros a; [reflexivity | apply (IH b)].
Qed.

Lemma last_snoc {A : Type} (l : list A) (x d : A) : last (l ++ [x]) d = x.
Proof. rewrite last_app_cons. reflexivity. Qed.

Lemma chain_snoc (l : list nat) (x : nat) :
  chain lt l -> last l x < x \/ l = [] -> chain lt (l ++ [x]).
Proof.
  induction l as [| a l IH]; intros Hc Hl; [exact I |].
  destruct l as [| b l].
  - simpl in *. destruct Hl as [Hl | Hl]; [auto | discriminate].
  - destruct Hc as [Hab Hc]. split; [exact Hab |].
    apply IH; [exact Hc |]. left.
    destruct Hl as [Hl | Hl]; [exact Hl | discriminate].
Qed.

(** The offsets the loop appends go up from the end of the span before, and
    stay within the text. *)
Lemma tail_plan_increasing (len : nat) (rest : list (nat * nat)) :
  forall q : nat * nat,
    non_overlapping (q :: rest) ->
    Forall proper rest ->
    Forall (within len) rest ->
    snd q <= len ->
    chain lt (snd q :: snd (tail_plan (snd q) rest)) /\
    last (snd q :: snd (tail_plan (snd q) rest)) 0 <= len.
Proof.
  induction rest as [| [s e] rest IH]; intros q Hno Hp Hw Hq.
  - simpl. auto.
  - destruct Hno as [Hqs Hno]. simpl in Hqs.
    inversion Hp as [| ? ? Hse Hp']; subst.
    inversion Hw as [| ? ? Hwe Hw']; subst.
    unfold proper in Hse. unfold within in Hwe. simpl in Hse, Hwe.
    destruct (IH (s, e) Hno Hp' Hw' (proj2 Hwe)) as [Hc Hl].
    simpl snd in Hc, Hl. simpl tail_plan.
    destruct (tail_plan e rest) as [hs ms]. simpl snd in Hc, Hl.
    destruct (snd q =? s) eqn:E.
    + apply Nat.eqb_eq in E. simpl snd. split.
      * split; [lia | exact Hc].
      * exact Hl.
    + apply Nat.eqb_neq in E. simpl snd. split.
      * split; [lia |]. split; [lia | exact Hc].
      * exact Hl.
Qed.

(** For every non-empty list of spans the offsets start at 0, end at the
    length of the text, and are one more than the flags. *)
Lemma plan_shape (mp : list (nat * nat)) (t : string) :
  mp <> [] ->
  hd_error (snd (process_matches mp t)) = Some 0 /\
  last (snd (process_matches mp t)) 0 = String.length t /\
  List.length (snd (process_matches mp t)) =
  S (List.length (fst (process_matches mp t))).
Proof.
  destruct mp as [| [s e] rest]; [congruence | intros _].
  rewrite process_matches_cons. cbv zeta.
  pose proof (tail_plan_length rest e) as Hlen.
  destruct (tail_plan e rest) as [hs ms]. simpl fst in *. simpl snd in *.
  destruct (last _ 0 =? String.length t) eqn:El.
  - apply Nat.eqb_eq in El. simpl fst. simpl snd.
    destruct (s =? 0) eqn:Es; [apply Nat.eqb_eq in Es; subst s |];
      simpl app in *; (split; [reflexivity |]); (split; [exact El |]);
      simpl; lia.
  - simpl fst. simpl snd. rewrite last_snoc.
    destruct (s =? 0) eqn:Es; [apply Nat.eqb_eq in Es; subst s |];
      simpl app in *; (split; [reflexivity |]); (split; [reflexivity |]);
      simpl; rewrite !length_app; simpl; lia.
Qed.

End PlanShape.

(** * The claims about the match resolver *)

Lemma offsets_increasing (mp : list (nat * nat)) (t : string) :
  non_overlapping mp ->
  Forall (within (String.length t)) mp ->
  Forall proper mp ->
  strictly_increasing (snd (process_matches mp t)).
Proof.
  destruct mp as [| [s e] rest]; intros Hno Hw Hp; [exact I |].
  inversion Hp as [| ? ? Hse Hp']; subst.
  inversion Hw as [| ? ? Hwe Hw']; subst.
  unfold proper in Hse. unfold within in Hwe. simpl in Hse, Hwe.
  destruct (@tail_plan_increasing (String.length t) rest (s, e) Hno Hp' Hw'
              (proj2 Hwe))
    as [Hc Hl].
  simpl snd in Hc, Hl.
  rewrite process_matches_cons. cbv zeta.
  destruct (tail_plan e rest) as [hs ms]. simpl fst. simpl snd in *.
  assert (Hms0 : chain lt ((if s =? 0 then [] else [0]) ++ s :: e :: ms)).
  { destruct (s =? 0) eqn:Es; simpl app.
    - split; [lia | exact Hc].
    - apply Nat.eqb_neq in Es. split; [lia |]. split; [lia | exact Hc]. }
  destruct (last _ 0 =? String.length t) eqn:El; simpl snd; [exact Hms0 |].
  apply Nat.eqb_neq in El. apply chain_snoc; [exact Hms0 |]. left.
  rewrite last_app_cons in El |- *.
  rewrite (last_cons_default s (e :: ms) (String.length t) 0).
  change (last (s :: e :: ms) 0) with (last (e :: ms) 0) in El |- *.
  lia.
Qed.

(** C2, as amended: for every non-empty list of match spans that is ordered
    by start ascending, non-overlapping, with each span within
    [[0, textLength]] and each span non-empty ([start < end]), the offsets
    [process_matches] returns are strictly increasing, begin with 0, end with
    the length of the text, and [len(highlights) == len(offsets) - 1]. *)
Theorem segment_plan_invariant (mp : list (nat * nat)) (t : string) :
  mp <> [] ->
  ascending_starts mp ->
  non_overlapping mp ->
  Forall (within (String.length t)) mp ->
  Forall proper mp ->
  let '(hs, offs) := process_matches mp t in
  strictly_increasing offs /\
  hd_error offs = Some 0 /\
  last offs 0 = String.length t /\
  List.length hs = List.length offs - 1.
Proof.
  intros Hne _ Hno Hw Hp.
  pose proof (offsets_increasing t Hno Hw Hp) as Hinc.
  destruct (plan_shape t Hne) as (Hhd & Hlast & Hlen).
  destruct (process_matches mp t) as [hs offs]. simpl in *.
  repeat split; auto. lia.
Qed.

Lemma segment_plan_invariant_witness :
  let '(hs, offs) := process_matches [(2, 4); (4, 5); (7, 9)] "0123456789" in
  strictly_increasing offs /\
  hd_error offs = Some 0 /\
  last offs 0 = String.length "0123456789" /\
  List.length hs = List.length offs - 1.
Proof.
  apply (@segment_plan_invariant [(2, 4); (4, 5); (7, 9)] "0123456789").
  - discriminate.
  - unfold ascending_starts; simpl; lia.
  - unfold non_overlapping; simpl; lia.
  - repeat (apply Forall_cons; [unfold within; simpl; lia |]); apply Forall_nil.
  - repeat (apply Forall_cons; [unfold proper; simpl; lia |]); apply Forall_nil.
Defined.

(** C2, as stated, fails on an empty match (which [re.finditer] reports for
    a pattern such as [x*]): the span [(2, 2)] in a text of length 5 meets
    every hypothesis of the claim, and the offsets [[0; 2; 2; 5]] are not
    strictly increasing. *)
Lemma segment_plan_empty_span_counterexample :
  let mp := [(2, 2)] in
  let t := "hello" in
  mp <> [] /\
  ascending_starts mp /\
  non_overlapping mp /\
  Forall (within (String.length t)) mp /\
  snd (process_matches mp t) = [0; 2; 2; 5] /\
  ~ strictly_increasing (snd (process_matches mp t)).
Proof.
  cbv zeta. repeat split.
  - discriminate.
  - apply Forall_cons; [unfold within; simpl; lia | apply Forall_nil].
  - intros H. vm_compute in H. destruct H as (_ & H & _).
    exact (Nat.lt_irrefl 2 H).
Qed.

(** C3, as amended: for the spans [(0,3)] and [(3,6)] that the patterns
    [foo] and [bar] give on [foobar], [process_matches] returns the offsets
    [[0; 3; 6]] and the flags [[true; true]]: two highlighted segments side
    by side, with the cut between them kept. *)
Theorem foobar_plan :
  Literal.finditer (String.concat "|" ["foo"; "bar"]) "foobar" = [(0, 3); (3, 6)] /\
  String.length "foobar" = 6 /\
  process_matches [(0, 3); (3, 6)] "foobar" = ([true; true], [0; 3; 6]).
Proof. repeat split. Qed.

(** C3, as stated, fails: the offsets are not [[0; 6]]. *)
Lemma foobar_plan_counterexample :
  snd (process_matches [(0, 3); (3, 6)] "foobar") <> [0; 6].
Proof. vm_compute. discriminate. Qed.

(** C4, as amended: on [call 555-1234 now] (17 characters) the pattern
    [555-1234] matches the span [(5, 13)], and [process_matches] returns the
    offsets [[0; 5; 13; 17]] and the flags [[false; true; false]]. *)
Theorem phone_plan :
  let t := "call 555-1234 now" in
  String.length t = 17 /\
  Literal.finditer "555-1234" t = [(5, 13)] /\
  slice 5 13 t = "555-1234" /\
  process_matches (Literal.finditer "555-1234" t) t =
  ([false; true; false], [0; 5; 13; 17]).
Proof. repeat split. Qed.

(** C4, as stated, fails: the offsets are not [[0; 5; 14; 17]]. *)
Lemma phone_plan_counterexample :
  let t := "call 555-1234 now" in
  process_matches (Literal.finditer "555-1234" t) t <>
  ([false; true; false], [0; 5; 14; 17]).
Proof. vm_compute. discriminate. Qed.

(** C5: for every run in which N >= 1 non-overlapping, ascending match spans
    with [start < end] are found, exactly N segments of the plan are flagged
    highlighted, and the offsets are one more than the flags. *)
Theorem coverage_invariant (mp : list (nat * nat)) (t : string) :
  1 <= List.length mp ->
  ascending_starts mp ->
  non_overlapping mp ->
  Forall proper mp ->
  let '(hs, offs) := process_matches mp t in
  count_true hs = List.length mp /\
  List.length offs = List.length hs + 1.
Proof.
  intros Hn _ _ _.
  assert (Hne : mp <> []) by (destruct mp; simpl in Hn; [lia | discriminate]).
  destruct (plan_shape t Hne) as (_ & _ & Hlen).
  assert (Hcount : count_true (fst (process_matches mp t)) = List.length mp).
  { destruct mp as [| [s e] rest]; [congruence |].
    rewrite process_matches_cons. cbv zeta.
    pose proof (tail_plan_count rest e) as Hc.
    destruct (tail_plan e rest) as [hs ms]. simpl fst in *. simpl snd.
    destruct (last _ 0 =? String.length t); simpl fst;
      rewrite ?count_true_app; change (true :: hs) with ([true] ++ hs);
      rewrite count_true_app, Hc; destruct (s =? 0); unfold count_true;
      simpl; lia. }
  destruct (process_matches mp t) as [hs offs]. simpl in *.
  split; [exact Hcount | lia].
Qed.

Lemma coverage_invariant_witness :
  let '(hs, offs) := process_matches [(0, 6); (6, 12); (13, 14)] "secretsecret x!" in
  count_true hs = 3 /\ List.length offs = List.length hs + 1.
Proof.
  apply (@coverage_invariant [(0, 6); (6, 12); (13, 14)] "secretsecret x!").
  - simpl. lia.
  - unfold ascending_starts; simpl; lia.
  - unfold non_overlapping; simpl; lia.
  - repeat (apply Forall_cons; [unfold proper; simpl; lia |]); apply Forall_nil.
Defined.

(** C10: [process_matches] is a function of [match_pairs] and of the length
    of [run_text] only, and the call leaves [match_pairs] as it was. *)
Theorem process_matches_length_only (mp : list (nat * nat)) (t1 t2 : string) :
  String.length t1 = String.length t2 ->
  process_matches mp t1 = process_matches mp t2 /\
  match_pairs (run_body mp t1) = mp /\
  match_pairs (run_body mp t2) = mp.
Proof.
  intros Hlen. rewrite !run_body_match_pairs. repeat split.
  destruct mp as [| [s e] rest]; [reflexivity |].
  rewrite !process_matches_cons, Hlen. reflexivity.
Qed.

Lemma process_matches_length_only_witness :
  process_matches [(1, 3)] "abcde" = process_matches [(1, 3)] "vwxyz" /\
  match_pairs (run_body [(1, 3)] "abcde") = [(1, 3)] /\
  match_pairs (run_body [(1, 3)] "vwxyz") = [(1, 3)].
Proof.
  apply (@process_matches_length_only [(1, 3)] "abcde" "vwxyz"). reflexivity.
Defined.

(** * The claim about the colour lookup *)

(** C9: [redact_colors] maps [white] to white on white and [yellow] to yellow
    on yellow, and returns black on black for every other colour name and for
    [None]; it returns a pair on every input. *)
Theorem redact_colors_table :
  redact_colors (Some "white") = (mkRGB 255 255 255, WHITE) /\
  redact_colors (Some "yellow") = (mkRGB 255 255 0, YELLOW) /\
  redact_colors None = (mkRGB 0 0 0, BLACK) /\
  forall c : string,
    c <> "white" -> c <> "yellow" ->
    redact_colors (Some c) = (mkRGB 0 0 0, BLACK).
Proof.
  repeat split. intros c Hw Hy.
  unfold redact_colors, dict_get, switcher. cbn -[String.eqb].
  apply not_eq_sym, String.eqb_neq in Hw.
  apply not_eq_sym, String.eqb_neq in Hy.
  rewrite Hw, Hy. reflexivity.
Qed.

Lemma redact_colors_table_witness :
  redact_colors (Some "White") = (mkRGB 0 0 0, BLACK).
Proof.
  apply (proj2 (proj2 (proj2 redact_colors_table))); discriminate.
Defined.

(** * Facts about strings and lists *)

Section Basics.

Lemma append_nil_r (s : string) : String.append s EmptyString = s.
Proof. induction s as [| c s IH]; simpl; [reflexivity | now rewrite IH]. Qed.

Lemma append_assoc (s1 s2 s3 : string) :
  String.append (String.append s1 s2) s3 = String.append s1 (String.append s2 s3).
Proof. induction s1 as [| c s1 IH]; simpl; [reflexivity | now rewrite IH]. Qed.

Lemma substring_0_length (s : string) : substring 0 (String.length s) s = s.
Proof. induction s as [| c s IH]; simpl; [reflexivity | now rewrite IH]. Qed.

Lemma substring_n_0 (s : string) : forall n, substring n 0 s = EmptyString.
Proof.
  induction s as [| c s IH]; intros [| n]; simpl; try reflexivity. apply IH.
Qed.

Lemma slice_whole (s : string) : slice 0 (String.length s) s = s.
Proof. unfold slice. rewrite Nat.sub_0_r. apply substring_0_length. Qed.

Lemma slice_empty (a : nat) (s : string) : slice a a s = EmptyString.
Proof. unfold slice. rewrite Nat.sub_diag. apply substring_n_0. Qed.

Lemma slice_from_eq (a : nat) (s : string) :
  slice_from a s = slice a (String.length s) s.
Proof. reflexivity. Qed.

(** A prefix of length [n] followed by the next [m] characters. *)
Lemma substring_split (s : string) :
  forall a n m,
    String.append (substring a n s) (substring (a + n) m s) =
    substring a (n + m) s.
Proof.
  induction s as [| c s IH]; intros a n m.
  - destruct a, n, m; reflexivity.
  - destruct a as [| a].
    + destruct n as [| n]; simpl.
      * destruct m; reflexivity.
      * f_equal. apply (IH 0 n m).
    + simpl. apply IH.
Qed.

Lemma slice_split (a b c : nat) (s : string) :
  a <= b -> b <= c ->
  String.append (slice a b s) (slice b c s) = slice a c s.
Proof.
  intros Hab Hbc. unfold slice.
  replace b with (a + (b - a)) at 2 by lia.
  rewrite substring_split. f_equal. lia.
Qed.

Lemma join_app (l1 l2 : list string) :
  join (l1 ++ l2) = String.append (join l1) (join l2).
Proof.
  induction l1 as [| x l1 IH]; simpl; [reflexivity |].
  rewrite IH, append_assoc. reflexivity.
Qed.

Lemma update_at_split {A : Type} (f : A -> A) (l : list A) :
  forall i x,
    nth_error l i = Some x ->
    update_at f i l = firstn i l ++ f x :: skipn (S i) l.
Proof.
  induction l as [| y l IH]; intros [| i] x H; simpl in *; try discriminate.
  - injection H as ->. reflexivity.
  - f_equal. apply IH, H.
Qed.

Lemma update_at_middle {A : Type} (f : A -> A) (pre post : list A) (x : A) :
  update_at f (List.length pre) (pre ++ x :: post) = pre ++ f x :: post.
Proof. induction pre as [| y pre IH]; simpl; [reflexivity | now rewrite IH]. Qed.

Lemma nth_error_middle {A : Type} (l : list A) (i : nat) (x : A) :
  nth_error l i = Some x ->
  l = firstn i l ++ x :: skipn (S i) l /\ List.length (firstn i l) = i.
Proof.
  revert i. induction l as [| y l IH]; intros [| i] H; simpl in *;
    try discriminate.
  - injection H as ->. auto.
  - destruct (IH i H) as [E L]. split; [f_equal; exact E | f_equal; exact L].
Qed.

Lemma firstn_exact {A : Type} (l1 l2 : list A) (n : nat) :
  List.length l1 = n -> firstn n (l1 ++ l2) = l1.
Proof.
  intros <-. rewrite firstn_app, Nat.sub_diag, firstn_O, app_nil_r.
  apply firstn_all.
Qed.

Lemma skipn_exact {A : Type} (l1 l2 : list A) (n : nat) :
  List.length l1 = n -> skipn n (l1 ++ l2) = l2.
Proof.
  intros <-. rewrite skipn_app, Nat.sub_diag, skipn_O, skipn_all.
  reflexivity.
Qed.

Lemma firstn_snoc {A : Type} (l : list A) :
  forall i x, nth_error l i = Some x -> firstn (S i) l = firstn i l ++ [x].
Proof.
  induction l as [| y l IH]; intros [| i] x H; simpl in H; try discriminate.
  - injection H as ->. reflexivity.
  - change (firstn (S (S i)) (y :: l)) with (y :: firstn (S i) l).
    rewrite (IH i x H). reflexivity.
Qed.

Lemma interior_ends (a : nat) (l : list nat) (d : nat) :
  l <> [] -> a :: l = a :: interior (a :: l) ++ [last (a :: l) d].
Proof.
  intros Hne. unfold interior. simpl tl. f_equal.
  destruct l as [| b l]; [congruence |].
  change (last (a :: b :: l) d) with (last (b :: l) d).
  apply app_removelast_last. discriminate.
Qed.

Lemma adjacent_nth (offs : list nat) :
  forall i, S i < List.length offs ->
    nth_error (adjacent offs) i = Some (nth i offs 0, nth (S i) offs 0).
Proof.
  unfold adjacent.
  induction offs as [| a offs IH]; intros i Hi; simpl in Hi; [lia |].
  destruct offs as [| b offs]; [simpl in Hi; lia |].
  destruct i as [| i]; [reflexivity |].
  simpl tl in *. simpl combine. simpl nth_error.
  rewrite IH by (simpl in *; lia). reflexivity.
Qed.

End Basics.

(** * Facts about the orchestrator *)

Section OrchestratorFacts.

Variable Props : Type.
Variable finditer : string -> string -> list (nat * nat).
Variable pattern : list string.
Variable replace_with : option string.
Variable txt_color : RGBColor.
Variable background_color : WD_COLOR_INDEX.

Local Abbreviation paint := (highlight_run (Props := Props) replace_with txt_color background_color).
Local Abbreviation plan_of run :=
  (process_matches (finditer (String.concat "|" pattern) (text run)) (text run)).

(** The loop over [zip(highlights, new_runs)] changes the runs it was handed,
    each according to its flag, and nothing around them. *)
Lemma highlight_loop_block (news : list (Run Props)) :
  forall (hs : list bool) (pre post : list (Run Props)),
    List.length hs = List.length news ->
    highlight_loop replace_with txt_color background_color hs
      (seq (List.length pre) (List.length news)) (pre ++ news ++ post) =
    pre ++ map (fun hr => if (fst hr : bool) then paint (snd hr) else snd hr)
             (combine hs news) ++ post.
Proof.
  unfold highlight_loop.
  induction news as [| r news IH]; intros hs pre post Hlen.
  - destruct hs; [reflexivity | discriminate].
  - destruct hs as [| h hs]; [discriminate |].
    simpl List.length. simpl seq. simpl combine. simpl fold_left. simpl map.
    injection Hlen as Hlen.
    assert (Hstep :
      (if h then update_at paint (List.length pre) (pre ++ r :: news ++ post)
       else pre ++ r :: news ++ post) =
      (pre ++ [if h then paint r else r]) ++ news ++ post).
    { destruct h; simpl app; [rewrite update_at_middle |];
        rewrite <- app_assoc; reflexivity. }
    simpl fst. simpl snd. rewrite Hstep.
    replace (S (List.length pre))
      with (List.length (pre ++ [if h then paint r else r]))
      by (rewrite length_app; simpl; lia).
    rewrite (IH hs _ post Hlen). rewrite <- app_assoc. reflexivity.
Qed.

(** The texts the splitter produces are the slices between neighbouring
    offsets. *)
Lemma split_texts_adjacent (t : string) (mid : list nat) :
  forall a,
    split_texts t a mid =
    map (fun ab => slice (fst ab) (snd ab) t)
      (adjacent (a :: mid ++ [String.length t])).
Proof.
  induction mid as [| o mid IH]; intros a; [reflexivity |].
  simpl split_texts. rewrite IH. reflexivity.
Qed.

Lemma plan_nonempty (mp : list (nat * nat)) (t : string) :
  mp <> [] -> fst (process_matches mp t) <> [].
Proof.
  destruct mp as [| [s e] rest]; [congruence | intros _].
  rewrite process_matches_cons. cbv zeta.
  destruct (last _ 0 =? String.length t), (s =? 0); simpl; discriminate.
Qed.

(** Two offsets only: one highlighted segment, the whole text. *)
Lemma whole_run_plan (mp : list (nat * nat)) (t : string) :
  List.length (snd (process_matches mp t)) = 2 ->
  process_matches mp t = ([true], [0; String.length t]).
Proof.
  intros H2.
  destruct mp as [| [s e] rest]; [discriminate |].
  assert (Hne : (s, e) :: rest <> []) by discriminate.
  destruct (plan_shape t Hne) as (Hhd & Hlast & _). revert H2 Hhd Hlast.
  rewrite process_matches_cons. cbv zeta.
  pose proof (tail_plan_length rest e) as Hlen.
  destruct (tail_plan e rest) as [hs ms]. simpl fst in *. simpl snd in *.
  destruct (last _ 0 =? String.length t), (s =? 0); simpl;
    rewrite ?length_app; simpl; intros H2 Hhd Hlast; try lia.
  assert (ms = []) by (destruct ms; [reflexivity | simpl in H2; lia]).
  subst ms. destruct hs; [| discriminate].
  simpl in Hlast. injection Hhd as ->. subst e. reflexivity.
Qed.

Lemma set_text_same (run : Run Props) : set_text (text run) run = run.
Proof. destruct run. reflexivity. Qed.

(** What one iteration of the [while] loop does to the paragraph: the run it
    visits is replaced, in its place, by the runs the plan asks for. *)
Lemma redact_run_block (para : Paragraph Props) (run_index : nat)
  (run : Run Props) :
  nth_error para run_index = Some run ->
  redact_run finditer (@split_run_by Props) pattern replace_with txt_color
    background_color para run_index =
  Returned
    (firstn run_index para ++
     expected_runs replace_with txt_color background_color (plan_of run) run ++
     skipn (S run_index) para).
Proof.
  intros Hrun. unfold redact_run. rewrite Hrun.
  destruct (nth_error_middle para run_index Hrun) as [Hpara Hpre].
  set (mp := finditer (String.concat "|" pattern) (text run)).
  destruct mp as [| sp rest] eqn:Emp.
  { (* nothing matched *)
    change (process_matches [] (text run)) with (@nil bool, @nil nat).
    unfold apply_plan, expected_runs. simpl. rewrite <- Hpara at 1.
    reflexivity. }
  assert (Hne : sp :: rest <> []) by discriminate.
  destruct (plan_shape (text run) Hne) as (Hhd & Hlast & Hlen).
  pose proof (plan_nonempty (text run) Hne) as Hhs.
  pose proof (@whole_run_plan (sp :: rest) (text run)) as Hwhole.
  destruct (process_matches (sp :: rest) (text run)) as [hs ms].
  simpl fst in *. simpl snd in *.
  unfold apply_plan.
  assert (H0 : (0 <? List.length hs) && (0 <? List.length ms) = true).
  { destruct hs; [congruence |]. rewrite Hlen. reflexivity. }
  rewrite H0.
  assert (H1 : negb (List.length hs =? List.length ms - 1) = false).
  { rewrite Hlen. simpl. rewrite Nat.sub_0_r, Nat.eqb_refl. reflexivity. }
  rewrite H1.
  destruct (List.length ms =? 2) eqn:E2.
  - (* the whole run is one match *)
    apply Nat.eqb_eq in E2. specialize (Hwhole E2).
    injection Hwhole as -> ->.
    rewrite (update_at_split _ _ _ Hrun).
    unfold expected_runs, segment_run. simpl.
    rewrite slice_whole, set_text_same. reflexivity.
  - (* the run is split *)
    apply Nat.eqb_neq in E2.
    destruct ms as [| m0 ms]; [discriminate |].
    injection Hhd as ->.
    assert (Hms : ms <> []) by (destruct ms; [destruct hs; simpl in *; congruence | discriminate]).
    pose proof (interior_ends 0 0 Hms) as Hends. rewrite Hlast in Hends.
    unfold split_run_by. rewrite Hrun.
    rewrite split_texts_adjacent, <- Hends.
    set (news := map (fun t => set_text t run) _).
    assert (Hnews : List.length hs = List.length news).
    { subst news. rewrite !length_map. unfold adjacent.
      rewrite length_combine. simpl tl. simpl List.length in *. lia. }
    pose proof (highlight_loop_block news hs (firstn run_index para)
                  (skipn (S run_index) para) Hnews) as Hloop.
    rewrite Hpre in Hloop. rewrite Hloop.
    do 3 f_equal. unfold expected_runs. simpl fst. simpl snd.
    destruct hs as [| h hs]; [congruence |].
    subst news. rewrite map_map.
    set (offs := adjacent (0 :: ms)). clearbody offs.
    clear. revert offs. generalize (h :: hs) as l.
    induction l as [| x l IH]; intros [| ab offs]; simpl; try reflexivity.
    rewrite IH. f_equal.
Qed.

(** The loop from [run_index = n - 1] down to 0 replaces each of the first
    [n] runs by the runs its plan asks for, and leaves the others. *)
Lemma redact_runs_prefix (n : nat) :
  forall para : Paragraph Props,
    n <= List.length para ->
    redact_runs finditer (@split_run_by Props) pattern replace_with txt_color
      background_color n para =
    Returned
      (flat_map
         (fun run =>
            expected_runs replace_with txt_color background_color
              (plan_of run) run)
         (firstn n para) ++
       skipn n para).
Proof.
  induction n as [| n IH]; intros para Hn; [reflexivity |].
  simpl redact_runs.
  destruct (nth_error para n) as [run |] eqn:Hrun;
    [| apply nth_error_None in Hrun; lia].
  rewrite (redact_run_block _ _ Hrun). simpl bind.
  destruct (nth_error_middle para n Hrun) as [Hpara Hpre].
  rewrite IH by (rewrite length_app, Hpre; lia).
  f_equal.
  rewrite (firstn_exact _ _ Hpre), (skipn_exact _ _ Hpre).
  rewrite (firstn_snoc _ _ Hrun), flat_map_app. simpl flat_map.
  rewrite app_nil_r, <- app_assoc. reflexivity.
Qed.

Local Abbreviation seg_text run :=
  (fun hab : bool * (nat * nat) =>
     text (segment_run replace_with txt_color background_color run
             (fst hab) (snd hab))).

Lemma segment_text (run : Run Props) (h : bool) (a b : nat) :
  text (segment_run replace_with txt_color background_color run h (a, b)) =
  if h then match replace_with with
            | Some r => r
            | None => slice a b (text run)
            end
  else slice a b (text run).
Proof.
  unfold segment_run, highlight_run. destruct h, replace_with; reflexivity.
Qed.

(** The segments the loop and the closing test add read as the text from the
    end of the first span on, with the later spans substituted. *)
Lemma tail_plan_text (run : Run Props) (rest : list (nat * nat)) :
  forall p,
    let hs := fst (tail_plan p rest) in
    let ms := snd (tail_plan p rest) in
    let closed := last (p :: ms) 0 =? String.length (text run) in
    join (map (seg_text run)
            (combine (hs ++ (if closed then [] else [false]))
               (adjacent (p :: ms ++
                          (if closed then [] else [String.length (text run)])))))
    = substitute replace_with (text run) p rest.
Proof.
  induction rest as [| [s e] rest IH]; intros p; cbv zeta.
  - simpl tail_plan. simpl fst. simpl snd. simpl last.
    destruct (p =? String.length (text run)) eqn:E.
    + apply Nat.eqb_eq in E. simpl. rewrite E, slice_empty. reflexivity.
    + unfold adjacent. cbn [map combine tl join fold_right app fst snd].
      rewrite segment_text, append_nil_r. reflexivity.
  - specialize (IH e). cbv zeta in IH. simpl tail_plan.
    destruct (tail_plan e rest) as [hs ms]. simpl fst in IH. simpl snd in IH.
    simpl substitute. rewrite <- IH.
    destruct (p =? s) eqn:E; simpl fst; simpl snd.
    + apply Nat.eqb_eq in E. subst s. rewrite slice_empty.
      change (last (p :: e :: ms) 0) with (last (e :: ms) 0).
      unfold adjacent. cbn [map combine tl join fold_right app fst snd].
      rewrite segment_text. reflexivity.
    + change (last (p :: s :: e :: ms) 0) with (last (e :: ms) 0).
      unfold adjacent. cbn [map combine tl join fold_right app fst snd].
      rewrite !segment_text. reflexivity.
Qed.

(** The runs that take the place of a run read as its text with the matched
    spans substituted. *)
Lemma expected_runs_text (run : Run Props) :
  visible_text
    (expected_runs replace_with txt_color background_color (plan_of run) run) =
  substitute replace_with (text run) 0
    (finditer (String.concat "|" pattern) (text run)).
Proof.
  unfold visible_text.
  destruct (finditer (String.concat "|" pattern) (text run))
    as [| [s e] rest].
  - change (process_matches [] (text run)) with (@nil bool, @nil nat).
    unfold expected_runs. simpl. rewrite append_nil_r, slice_whole.
    reflexivity.
  - assert (Hne : (s, e) :: rest <> []) by discriminate.
    pose proof (plan_nonempty (text run) Hne) as Hhs.
    unfold expected_runs.
    destruct (fst (process_matches ((s, e) :: rest) (text run))) eqn:Eh;
      [congruence |]. rewrite <- Eh. clear Eh Hhs. rewrite map_map.
    rewrite process_matches_cons. cbv zeta.
    pose proof (tail_plan_text run rest e) as Ht. cbv zeta in Ht.
    destruct (tail_plan e rest) as [hs ms]. simpl fst in Ht. simpl snd in Ht.
    change (snd (hs, ms)) with ms. change (fst (hs, ms)) with hs.
    rewrite last_app_cons.
    change (last (s :: e :: ms) 0) with (last (e :: ms) 0).
    simpl substitute. rewrite <- Ht.
    destruct (last (e :: ms) 0 =? String.length (text run));
      destruct (s =? 0) eqn:Es; try (apply Nat.eqb_eq in Es; subst s);
      simpl fst; simpl snd; rewrite <- ?app_assoc, ?app_nil_r;
      unfold adjacent;
      cbn [map combine tl join fold_right app fst snd String.append];
      rewrite ?segment_text, ?slice_empty; reflexivity.
Qed.

Lemma visible_text_flat_map (f : Run Props -> list (Run Props))
  (para : Paragraph Props) :
  visible_text (flat_map f para) =
  join (map (fun run => visible_text (f run)) para).
Proof.
  unfold visible_text.
  induction para as [| run para IH]; [reflexivity |].
  simpl flat_map. rewrite map_app, join_app, IH. reflexivity.
Qed.

End OrchestratorFacts.

(** Without a replacement the substituted text is the text: the segments of
    well-formed spans tile it. *)
Lemma substitute_None (t : string) (rest : list (nat * nat)) :
  forall q : nat * nat,
    non_overlapping (q :: rest) ->
    Forall (within (String.length t)) rest ->
    snd q <= String.length t ->
    substitute None t (snd q) rest = slice (snd q) (String.length t) t.
Proof.
  induction rest as [| [s e] rest IH]; intros q Hno Hw Hq; [reflexivity |].
  destruct Hno as [Hqs Hno]. simpl in Hqs.
  inversion Hw as [| ? ? Hwe Hw']; subst. destruct Hwe as [Hse He].
  simpl in Hse, He. simpl substitute.
  pose proof (IH (s, e) Hno Hw' He) as IHe. simpl snd in IHe. rewrite IHe.
  rewrite (slice_split t Hse He), (slice_split t Hqs); [reflexivity | lia].
Qed.

(** * The claims about the orchestrator *)

Section OrchestratorClaims.

Variable Props : Type.
Variable finditer : string -> string -> list (nat * nat).
Variable pattern : list string.
Variable replace_with : option string.
Variable txt_color : RGBColor.
Variable background_color : WD_COLOR_INDEX.

Local Abbreviation plan_of run :=
  (process_matches (finditer (String.concat "|" pattern) (text run)) (text run)).
Local Abbreviation expected run :=
  (expected_runs replace_with txt_color background_color (plan_of run) run).

Lemma nth_error_combine {A B : Type} (l1 : list A) (l2 : list B) :
  forall i x y,
    nth_error l1 i = Some x -> nth_error l2 i = Some y ->
    nth_error (combine l1 l2) i = Some (x, y).
Proof.
  revert l2. induction l1 as [| a l1 IH]; intros [| b l2] [| i] x y H1 H2;
    simpl in *; try discriminate.
  - congruence.
  - apply IH; assumption.
Qed.

(** The run that stands for segment [i] of a run's plan. *)
Lemma expected_runs_nth (run : Run Props) (i : nat) (h : bool) :
  nth_error (fst (plan_of run)) i = Some h ->
  nth_error (expected run) i =
  Some (segment_run replace_with txt_color background_color run h
          (nth i (snd (plan_of run)) 0, nth (S i) (snd (plan_of run)) 0)).
Proof.
  intros Hh.
  assert (Hi : i < List.length (fst (plan_of run)))
    by (apply nth_error_Some; congruence).
  assert (Hne : finditer (String.concat "|" pattern) (text run) <> []).
  { intros E. rewrite E in Hh. destruct i; discriminate. }
  destruct (plan_shape (text run) Hne) as (_ & _ & Hlen).
  assert (Hadj : S i < List.length (snd (plan_of run))) by lia.
  apply adjacent_nth in Hadj.
  unfold expected_runs.
  destruct (fst (plan_of run)) as [| h0 hs] eqn:Eh; [destruct i; discriminate |].
  rewrite nth_error_map, (nth_error_combine _ _ _ Hh Hadj).
  reflexivity.
Qed.


(** C6: when the resolver returns the two offsets [[0; textLength]], the run
    is changed where it stands, whatever the splitter is: its text becomes
    the replacement when one is given and stays otherwise, its highlight
    colour and its text colour are set, and the rest of the paragraph is as
    it was. *)
Theorem whole_run_in_place
  (splitter : Paragraph Props -> nat -> list nat -> Paragraph Props * list nat)
  (para : Paragraph Props) (run_index : nat) (run : Run Props) :
  nth_error para run_index = Some run ->
  snd (plan_of run) = [0; String.length (text run)] ->
  redact_run finditer splitter pattern replace_with txt_color background_color
    para run_index =
  Returned
    (firstn run_index para ++
     mkRun (match replace_with with Some r => r | None => text run end)
       (Some background_color) (Some txt_color) (props run)
     :: skipn (S run_index) para).
Proof.
  intros Hrun Hoffs. unfold redact_run. rewrite Hrun.
  assert (H2 : List.length (snd (plan_of run)) = 2) by (rewrite Hoffs; reflexivity).
  rewrite (whole_run_plan _ _ H2). unfold apply_plan. simpl.
  rewrite (update_at_split _ _ _ Hrun). unfold highlight_run.
  destruct replace_with; reflexivity.
Qed.

(** C7: the loop over a paragraph returns, and replaces each run, in its
    place, by the runs its plan asks for.  A run with no match is kept as it
    is; a segment whose flag is false becomes a run with its slice of the
    text and the formatting of the original; the visible text of the
    paragraph is the old one with the matched spans substituted. *)
Theorem redaction_frame (para : Paragraph Props) :
  exists para' : Paragraph Props,
    redact_paragraph finditer (@split_run_by Props) pattern replace_with
      txt_color background_color para = Returned para' /\
    para' = flat_map (fun run => expected run) para /\
    (forall run : Run Props,
        finditer (String.concat "|" pattern) (text run) = [] ->
        expected run = [run]) /\
    (forall (run : Run Props) (i : nat),
        nth_error (fst (plan_of run)) i = Some false ->
        nth_error (expected run) i =
        Some (mkRun
                (slice (nth i (snd (plan_of run)) 0)
                   (nth (S i) (snd (plan_of run)) 0) (text run))
                (highlight_color run) (color_rgb run) (props run))) /\
    visible_text para' =
    join (map (fun run =>
                 substitute replace_with (text run) 0
                   (finditer (String.concat "|" pattern) (text run)))
            para).
Proof.
  eexists. split; [| split; [reflexivity |]].
  - unfold redact_paragraph. rewrite redact_runs_prefix by lia.
    rewrite firstn_all, skipn_all, app_nil_r. reflexivity.
  - split; [| split].
    + intros run E. rewrite E. reflexivity.
    + intros run i Hi. rewrite (expected_runs_nth _ _ Hi). reflexivity.
    + rewrite visible_text_flat_map. f_equal. apply map_ext.
      intros run. apply expected_runs_text.
Qed.

(** C8: the run that stands for a highlighted segment reads [replace_with]
    when it is given, the empty string included, and keeps the matched text
    when it is not; it is coloured in both cases. *)
Theorem replacement_iff_present (para : Paragraph Props) (run_index : nat)
  (run : Run Props) (i : nat) :
  nth_error para run_index = Some run ->
  nth_error (fst (plan_of run)) i = Some true ->
  exists (para' : Paragraph Props) (seg : Run Props),
    redact_run finditer (@split_run_by Props) pattern replace_with txt_color
      background_color para run_index = Returned para' /\
    nth_error para' (run_index + i) = Some seg /\
    text seg =
      match replace_with with
      | Some r => r
      | None => slice (nth i (snd (plan_of run)) 0)
                  (nth (S i) (snd (plan_of run)) 0) (text run)
      end /\
    highlight_color seg = Some background_color /\
    color_rgb seg = Some txt_color.
Proof.
  intros Hrun Hi.
  destruct (nth_error_middle para run_index Hrun) as [_ Hpre].
  pose proof (expected_runs_nth _ _ Hi) as Hseg.
  eexists. eexists. split; [apply (redact_run_block _ _ _ _ _ _ _ Hrun) |].
  split.
  - rewrite nth_error_app2 by lia. rewrite Hpre.
    replace (run_index + i - run_index) with i by lia.
    rewrite nth_error_app1 by (apply nth_error_Some; congruence).
    exact Hseg.
  - split; [rewrite segment_text; reflexivity |].
    unfold segment_run, highlight_run. destruct replace_with; auto.
Qed.

End OrchestratorClaims.

(** Without a replacement, and with a matcher whose spans are in order and
    within the text, redaction leaves the visible text of a paragraph as it
    was. *)
Corollary visible_text_kept (Props : Type)
  (finditer : string -> string -> list (nat * nat)) (pattern : list string)
  (txt_color : RGBColor) (background_color : WD_COLOR_INDEX)
  (para : Paragraph Props) :
  (forall t,
      non_overlapping (finditer (String.concat "|" pattern) t) /\
      Forall (within (String.length t)) (finditer (String.concat "|" pattern) t)) ->
  exists para' : Paragraph Props,
    redact_paragraph finditer (@split_run_by Props) pattern None txt_color
      background_color para = Returned para' /\
    visible_text para' = visible_text para.
Proof.
  intros Hwf. eexists. split.
  - unfold redact_paragraph. rewrite redact_runs_prefix by lia.
    rewrite firstn_all, skipn_all, app_nil_r. reflexivity.
  - rewrite visible_text_flat_map. unfold visible_text at 2. f_equal.
    apply map_ext. intros run. rewrite expected_runs_text.
    destruct (Hwf (text run)) as [Hno Hw].
    rewrite (@substitute_None (text run) _ (0, 0)); simpl snd.
    + apply slice_whole.
    + destruct (finditer (String.concat "|" pattern) (text run));
        [exact I | split; [simpl; lia | exact Hno]].
    + exact Hw.
    + lia.
Qed.

(** * The claims at concrete inputs *)



Lemma whole_run_in_place_witness :
  redact_run Literal.finditer (@split_run_by unit) ["secret"] (Some "XXX")
    (mkRGB 0 0 0) BLACK [plain "top"; plain "secret"] 1 =
  Returned
    [plain "top"; mkRun "XXX" (Some BLACK) (Some (mkRGB 0 0 0)) tt].
Proof.
  apply (@whole_run_in_place unit Literal.finditer ["secret"] (Some "XXX")
           (mkRGB 0 0 0) BLACK (@split_run_by unit)
           [plain "top"; plain "secret"] 1 (plain "secret")).
  - reflexivity.
  - reflexivity.
Defined.

Lemma replacement_iff_present_witness :
  exists (para' : Paragraph unit) (seg : Run unit),
    redact_run Literal.finditer (@split_run_by unit) ["555-1234"] (Some EmptyString)
      (mkRGB 255 255 0) YELLOW [plain "call 555-1234 now"] 0 =
    Returned para' /\
    nth_error para' (0 + 1) = Some seg /\
    text seg = EmptyString /\
    highlight_color seg = Some YELLOW /\
    color_rgb seg = Some (mkRGB 255 255 0).
Proof.
  apply (@replacement_iff_present unit Literal.finditer ["555-1234"] (Some EmptyString)
           (mkRGB 255 255 0) YELLOW [plain "call 555-1234 now"] 0
           (plain "call 555-1234 now") 1).
  - reflexivity.
  - reflexivity.
Defined.

(** Scenario 2 of the specification: two matches side by side, each
    replaced. *)
Example secretsecret :
  redact_paragraph Literal.finditer (@split_run_by unit) ["secret"]
    (Some "XXX") (mkRGB 0 0 0) BLACK [plain "secretsecret"] =
  Returned [mkRun "XXX" (Some BLACK) (Some (mkRGB 0 0 0)) tt;
            mkRun "XXX" (Some BLACK) (Some (mkRGB 0 0 0)) tt].
Proof. reflexivity. Qed.

(** Scenario 1 of the specification on a whole document, without a
    replacement. *)
Example phone_document :
  redact_document Literal.finditer (@split_run_by unit)
    [[plain "call 555-1234 now"]; [plain "nothing here"]] ["555-1234"] None
    (Some "yellow") =
  Returned
    [[plain "call ";
      mkRun "555-1234" (Some YELLOW) (Some (mkRGB 255 255 0)) tt;
      plain " now"];
     [plain "nothing here"]].
Proof. reflexivity. Qed.

(** * Further facts about the match resolver *)

Section Segments.

Lemma tail_plan_segments (len : nat) (rest : list (nat * nat)) :
  forall p,
    let hs := fst (tail_plan p rest) in
    let ms := snd (tail_plan p rest) in
    let closed := last (p :: ms) 0 =? len in
    combine (hs ++ (if closed then [] else [false]))
      (adjacent (p :: ms ++ (if closed then [] else [len]))) =
    tail_segments len p rest.
Proof.
  induction rest as [| [s e] rest IH]; intros p; cbv zeta.
  - simpl tail_plan. simpl fst. simpl snd. simpl last. simpl tail_segments.
    destruct (p =? len); reflexivity.
  - specialize (IH e). cbv zeta in IH. simpl tail_plan. simpl tail_segments.
    destruct (tail_plan e rest) as [hs ms]. simpl fst in IH. simpl snd in IH.
    rewrite <- IH.
    destruct (p =? s) eqn:E; simpl fst; simpl snd.
    + apply Nat.eqb_eq in E. subst s.
      change (last (p :: e :: ms) 0) with (last (e :: ms) 0). reflexivity.
    + change (last (p :: s :: e :: ms) 0) with (last (e :: ms) 0). reflexivity.
Qed.

(** The flags of a plan paired with the segments its offsets cut out. *)
Lemma plan_segments (mp : list (nat * nat)) (t : string) :
  combine (fst (process_matches mp t)) (adjacent (snd (process_matches mp t))) =
  segments (String.length t) mp.
Proof.
  destruct mp as [| [s e] rest]; [reflexivity |].
  rewrite process_matches_cons. cbv zeta.
  pose proof (tail_plan_segments (String.length t) rest e) as Ht.
  cbv zeta in Ht. unfold segments. rewrite <- Ht.
  destruct (tail_plan e rest) as [hs ms].
  change (snd (hs, ms)) with ms. change (fst (hs, ms)) with hs.
  rewrite last_app_cons.
  change (last (s :: e :: ms) 0) with (last (e :: ms) 0).
  destruct (last (e :: ms) 0 =? String.length t);
    destruct (s =? 0) eqn:Es; try (apply Nat.eqb_eq in Es; subst s);
    simpl fst; simpl snd; rewrite <- ?app_assoc, ?app_nil_r; reflexivity.
Qed.

Lemma adjacent_length (offs : list nat) :
  List.length (adjacent offs) = List.length offs - 1.
Proof.
  unfold adjacent. rewrite length_combine.
  destruct offs; cbn [tl List.length]; lia.
Qed.

Lemma combine_fst {A B : Type} (l1 : list A) :
  forall l2 : list B,
    List.length l1 <= List.length l2 -> map fst (combine l1 l2) = l1.
Proof.
  induction l1 as [| a l1 IH]; intros [| b l2] H; simpl in *;
    try reflexivity; try lia.
  f_equal. apply IH. lia.
Qed.

(** The flags of a plan are the flags of its segments. *)
Lemma plan_flags (mp : list (nat * nat)) (t : string) :
  fst (process_matches mp t) = map fst (segments (String.length t) mp).
Proof.
  rewrite <- plan_segments. symmetry. apply combine_fst.
  rewrite adjacent_length.
  destruct mp as [| sp rest]; [simpl; lia |].
  assert (Hne : sp :: rest <> []) by discriminate.
  destruct (plan_shape t Hne) as (_ & _ & Hlen). lia.
Qed.

Lemma tail_segments_highlighted (len : nat) (rest : list (nat * nat)) :
  forall p,
    map snd (filter (fun seg => fst seg) (tail_segments len p rest)) = rest.
Proof.
  induction rest as [| [s e] rest IH]; intros p; simpl.
  - destruct (p =? len); reflexivity.
  - destruct (p =? s); simpl; rewrite IH; reflexivity.
Qed.

Lemma tail_segments_no_two_plain (len : nat) (rest : list (nat * nat)) :
  forall p,
    chain (fun a b : bool => a = true \/ b = true)
      (true :: map fst (tail_segments len p rest)).
Proof.
  induction rest as [| [s e] rest IH]; intros p; simpl tail_segments.
  - destruct (p =? len); simpl; auto.
  - destruct (p =? s); simpl app; simpl map.
    + split; [auto | apply IH].
    + split; [auto |]. split; [auto | apply IH].
Qed.

Lemma tail_segments_gaps (len : nat) (rest : list (nat * nat)) :
  forall q : nat * nat,
    non_overlapping (q :: rest) ->
    Forall (within len) rest ->
    snd q <= len ->
    Forall (fun seg => fst seg = false -> fst (snd seg) < snd (snd seg))
      (tail_segments len (snd q) rest).
Proof.
  induction rest as [| [s e] rest IH]; intros q Hno Hw Hq; simpl tail_segments.
  - destruct (snd q =? len) eqn:E; [constructor |].
    apply Nat.eqb_neq in E. constructor; [simpl; lia | constructor].
  - destruct Hno as [Hqs Hno]. simpl in Hqs.
    inversion Hw as [| ? ? Hwe Hw']; subst. destruct Hwe as [_ He].
    simpl in He.
    pose proof (IH (s, e) Hno Hw' He) as IHe. simpl snd in IHe.
    destruct (snd q =? s) eqn:E; simpl app.
    + constructor; [simpl; discriminate | exact IHe].
    + apply Nat.eqb_neq in E.
      constructor; [simpl; lia |].
      constructor; [simpl; discriminate | exact IHe].
Qed.

End Segments.

(** X1: The plan is empty exactly when nothing matched: both lists are empty for
    an empty [match_pairs], and neither is for a non-empty one. *)
Theorem plan_empty_iff (mp : list (nat * nat)) (t : string) :
  (fst (process_matches mp t) = [] <-> mp = []) /\
  (snd (process_matches mp t) = [] <-> mp = []).
Proof.
  split; split; intros H; try (subst mp; reflexivity).
  - destruct mp as [| sp rest]; [reflexivity |].
    exfalso. apply (@plan_nonempty (sp :: rest) t); [discriminate | exact H].
  - destruct mp as [| sp rest]; [reflexivity |].
    assert (Hne : sp :: rest <> []) by discriminate.
    destruct (plan_shape t Hne) as (Hhd & _). rewrite H in Hhd. discriminate.
Qed.

(** X2: The highlighted segments of a plan are the spans that were passed in, one
    for one and in the same order, whatever the spans are. *)
Theorem highlighted_segments_are_the_spans (mp : list (nat * nat)) (t : string) :
  let '(hs, offs) := process_matches mp t in
  map snd (filter (fun seg => fst seg) (combine hs (adjacent offs))) = mp.
Proof.
  pose proof (plan_segments mp t) as Hseg.
  destruct (process_matches mp t) as [hs offs]. simpl fst in Hseg.
  simpl snd in Hseg. rewrite Hseg.
  destruct mp as [| [s e] rest]; [reflexivity |].
  unfold segments. rewrite filter_app, map_app. simpl filter. simpl map.
  rewrite tail_segments_highlighted.
  destruct (s =? 0); reflexivity.
Qed.

(** X3: No two neighbouring segments of a plan are both left unhighlighted: the
    text between two matches is one segment. *)
Theorem plain_segments_never_adjacent (mp : list (nat * nat)) (t : string) :
  chain (fun a b : bool => a = true \/ b = true) (fst (process_matches mp t)).
Proof.
  rewrite plan_flags.
  destruct mp as [| [s e] rest]; [exact I |].
  unfold segments. rewrite map_app. simpl map.
  pose proof (tail_segments_no_two_plain (String.length t) rest e) as Hc.
  destruct (s =? 0); simpl app; [exact Hc |].
  split; [auto | exact Hc].
Qed.

(** X4: For spans that do not overlap and lie within the text (empty matches
    allowed), every unhighlighted segment of the plan is non-empty: the
    resolver asks for no empty pass-through run. *)
Theorem plain_segments_nonempty (mp : list (nat * nat)) (t : string) :
  non_overlapping mp ->
  Forall (within (String.length t)) mp ->
  let '(hs, offs) := process_matches mp t in
  Forall (fun seg => fst seg = false -> fst (snd seg) < snd (snd seg))
    (combine hs (adjacent offs)).
Proof.
  intros Hno Hw.
  pose proof (plan_segments mp t) as Hseg.
  destruct (process_matches mp t) as [hs offs]. simpl fst in Hseg.
  simpl snd in Hseg. rewrite Hseg.
  destruct mp as [| [s e] rest]; [constructor |].
  inversion Hw as [| ? ? Hwe Hw']; subst. destruct Hwe as [_ He]. simpl in He.
  pose proof (@tail_segments_gaps (String.length t) rest (s, e) Hno Hw' He)
    as Hg. simpl snd in Hg.
  unfold segments. destruct (s =? 0) eqn:Es; simpl app.
  - constructor; [simpl; discriminate | exact Hg].
  - apply Nat.eqb_neq in Es. constructor; [simpl; lia |].
    constructor; [simpl; discriminate | exact Hg].
Qed.

Lemma plain_segments_nonempty_witness :
  let '(hs, offs) := process_matches [(2, 2); (2, 5); (7, 10)] "0123456789" in
  Forall (fun seg => fst seg = false -> fst (snd seg) < snd (snd seg))
    (combine hs (adjacent offs)).
Proof.
  apply (@plain_segments_nonempty [(2, 2); (2, 5); (7, 10)] "0123456789").
  - unfold non_overlapping; simpl; lia.
  - repeat (apply Forall_cons; [unfold within; simpl; lia |]); apply Forall_nil.
Defined.

Section Offsets.

Lemma chain_snoc_rel {A : Type} (R : A -> A -> Prop) (l : list A) (x d : A) :
  chain R l -> l = [] \/ R (last l d) x -> chain R (l ++ [x]).
Proof.
  induction l as [| a l IH]; intros Hc Hl; [exact I |].
  destruct l as [| b l].
  - simpl in *. destruct Hl as [Hl | Hl]; [discriminate | auto].
  - destruct Hc as [Hab Hc]. split; [exact Hab |].
    apply IH; [exact Hc |]. right.
    destruct Hl as [Hl | Hl]; [discriminate | exact Hl].
Qed.

Lemma chain_le_last (l : list nat) (d : nat) :
  chain le l -> Forall (fun o => o <= last l d) l.
Proof.
  induction l as [| a l IH]; intros Hc; [constructor |].
  destruct l as [| b l]; [repeat constructor |].
  destruct Hc as [Hab Hc]. specialize (IH Hc).
  change (last (a :: b :: l) d) with (last (b :: l) d).
  constructor; [| exact IH].
  inversion IH; subst. lia.
Qed.

Lemma tail_plan_ascending (len : nat) (rest : list (nat * nat)) :
  forall q : nat * nat,
    non_overlapping (q :: rest) ->
    Forall (within len) rest ->
    snd q <= len ->
    chain le (snd q :: snd (tail_plan (snd q) rest)) /\
    last (snd q :: snd (tail_plan (snd q) rest)) 0 <= len.
Proof.
  induction rest as [| [s e] rest IH]; intros q Hno Hw Hq.
  - simpl. auto.
  - destruct Hno as [Hqs Hno]. simpl in Hqs.
    inversion Hw as [| ? ? Hwe Hw']; subst. destruct Hwe as [Hse He].
    simpl in Hse, He.
    destruct (IH (s, e) Hno Hw' He) as [Hc Hl].
    simpl snd in Hc, Hl. simpl tail_plan.
    destruct (tail_plan e rest) as [hs ms]. simpl snd in Hc, Hl.
    destruct (snd q =? s); simpl snd.
    + split; [split; [lia | exact Hc] | exact Hl].
    + split; [split; [exact Hqs | split; [exact Hse | exact Hc]] | exact Hl].
Qed.

Lemma tail_plan_flags_length (rest : list (nat * nat)) :
  forall p,
    List.length rest <= List.length (fst (tail_plan p rest)) /\
    List.length (fst (tail_plan p rest)) <= 2 * List.length rest.
Proof.
  induction rest as [| [s e] rest IH]; intros p; simpl; [lia |].
  specialize (IH e). destruct (tail_plan e rest) as [hs ms]. simpl in IH.
  destruct (p =? s); simpl; lia.
Qed.

Lemma chain_lt_between (b : nat) (mid : list nat) :
  forall a,
    chain lt (a :: mid ++ [b]) ->
    a < b /\ chain lt mid /\ Forall (fun o => a < o /\ o < b) mid.
Proof.
  induction mid as [| m mid IH]; intros a Hc.
  - simpl in Hc. repeat split; [tauto | constructor].
  - destruct Hc as [Ham Hc]. destruct (IH m Hc) as (Hmb & Hcm & Hall).
    split; [lia |]. split.
    + destruct mid as [| m' mid]; [exact I |].
      split; [inversion Hall; subst; tauto | exact Hcm].
    + constructor; [lia |].
      apply Forall_impl with (2 := Hall). intros o Ho. lia.
Qed.

End Offsets.

(** X5: For spans that do not overlap and lie within the text (empty matches
    allowed), the offsets of the plan never go down and none is beyond the
    end of the text. *)
Theorem offsets_ascending_in_text (mp : list (nat * nat)) (t : string) :
  non_overlapping mp ->
  Forall (within (String.length t)) mp ->
  chain le (snd (process_matches mp t)) /\
  Forall (fun o => o <= String.length t) (snd (process_matches mp t)).
Proof.
  intros Hno Hw.
  destruct mp as [| [s e] rest]; [split; [exact I | constructor] |].
  assert (Hne : (s, e) :: rest <> []) by discriminate.
  destruct (plan_shape t Hne) as (_ & Hlast & _).
  assert (Hc : chain le (snd (process_matches ((s, e) :: rest) t))).
  { clear Hlast. inversion Hw as [| ? ? Hwe Hw']; subst.
    destruct Hwe as [Hse He]. simpl in Hse, He.
    destruct (@tail_plan_ascending (String.length t) rest (s, e) Hno Hw' He)
      as [Hc Hl]. simpl snd in Hc, Hl.
    rewrite process_matches_cons. cbv zeta.
    destruct (tail_plan e rest) as [hs ms]. simpl fst. simpl snd in *.
    assert (Hms0 : chain le ((if s =? 0 then [] else [0]) ++ s :: e :: ms)).
    { destruct (s =? 0); simpl app.
      - split; [exact Hse | exact Hc].
      - split; [lia |]. split; [exact Hse | exact Hc]. }
    destruct (last _ 0 =? String.length t) eqn:El; simpl snd; [exact Hms0 |].
    apply chain_snoc_rel with (d := 0); [exact Hms0 |]. right.
    rewrite last_app_cons.
    change (last (s :: e :: ms) 0) with (last (e :: ms) 0). exact Hl. }
  split; [exact Hc |].
  rewrite <- Hlast. apply chain_le_last, Hc.
Qed.

Lemma offsets_ascending_in_text_witness :
  chain le (snd (process_matches [(2, 2); (2, 5); (7, 10)] "0123456789")) /\
  Forall (fun o => o <= String.length "0123456789")
    (snd (process_matches [(2, 2); (2, 5); (7, 10)] "0123456789")).
Proof.
  apply (@offsets_ascending_in_text [(2, 2); (2, 5); (7, 10)] "0123456789").
  - unfold non_overlapping; simpl; lia.
  - repeat (apply Forall_cons; [unfold within; simpl; lia |]); apply Forall_nil.
Defined.

(** X6: A plan for N spans has at least N and at most 2N + 1 segments. *)
Theorem segment_count_bounds (mp : list (nat * nat)) (t : string) :
  List.length mp <= List.length (fst (process_matches mp t)) /\
  List.length (fst (process_matches mp t)) <= 2 * List.length mp + 1.
Proof.
  destruct mp as [| [s e] rest]; [simpl; lia |].
  rewrite process_matches_cons. cbv zeta.
  pose proof (tail_plan_flags_length rest e) as Hl.
  destruct (tail_plan e rest) as [hs ms]. simpl fst in *. simpl snd.
  destruct (last _ 0 =? String.length t), (s =? 0); simpl fst;
    rewrite ?length_app; simpl; rewrite ?length_app; simpl; lia.
Qed.

(** X7: The cut points the orchestrator hands to the splitter
    ([matches[1:-1]]): for non-empty spans that do not overlap and lie within
    the text they are strictly increasing and strictly inside the text. *)
Theorem cut_points_inside (mp : list (nat * nat)) (t : string) :
  non_overlapping mp ->
  Forall (within (String.length t)) mp ->
  Forall proper mp ->
  strictly_increasing (interior (snd (process_matches mp t))) /\
  Forall (fun o => 0 < o /\ o < String.length t)
    (interior (snd (process_matches mp t))).
Proof.
  intros Hno Hw Hp.
  destruct mp as [| sp rest]; [split; [exact I | constructor] |].
  assert (Hne : sp :: rest <> []) by discriminate.
  pose proof (offsets_increasing t Hno Hw Hp) as Hinc.
  destruct (plan_shape t Hne) as (Hhd & Hlast & Hlen).
  pose proof (plan_nonempty t Hne) as Hhs.
  destruct (process_matches (sp :: rest) t) as [hs offs].
  simpl fst in *. simpl snd in *.
  destruct offs as [| o0 offs]; [discriminate |]. injection Hhd as ->.
  assert (Hoffs : offs <> [])
    by (destruct offs; [destruct hs; simpl in *; congruence | discriminate]).
  pose proof (interior_ends 0 0 Hoffs) as Hends. rewrite Hlast in Hends.
  unfold strictly_increasing in Hinc. rewrite Hends in Hinc.
  destruct (chain_lt_between _ _ _ Hinc) as (_ & Hc & Hall).
  split; assumption.
Qed.

Lemma cut_points_inside_witness :
  strictly_increasing
    (interior (snd (process_matches [(2, 4); (4, 5); (7, 9)] "0123456789"))) /\
  Forall (fun o => 0 < o /\ o < String.length "0123456789")
    (interior (snd (process_matches [(2, 4); (4, 5); (7, 9)] "0123456789"))).
Proof.
  apply (@cut_points_inside [(2, 4); (4, 5); (7, 9)] "0123456789").
  - unfold non_overlapping; simpl; lia.
  - repeat (apply Forall_cons; [unfold within; simpl; lia |]); apply Forall_nil.
  - repeat (apply Forall_cons; [unfold proper; simpl; lia |]); apply Forall_nil.
Defined.

(** * Further facts about the orchestrator *)

Section Documents.

Variable Props : Type.
Variable finditer : string -> string -> list (nat * nat).
Variable pattern : list string.
Variable replace_with : option string.

Local Abbreviation plan_of run :=
  (process_matches (finditer (String.concat "|" pattern) (text run)) (text run)).

Lemma for_each_map {A : Type} (f : A -> outcome A) (g : A -> A) (l : list A) :
  (forall x, In x l -> f x = Returned (g x)) ->
  for_each f l = Returned (map g l).
Proof.
  induction l as [| x l IH]; intros H; [reflexivity |].
  simpl. rewrite (H x (or_introl eq_refl)). simpl.
  rewrite IH by (intros y Hy; apply H; right; exact Hy). reflexivity.
Qed.

Lemma redact_paragraph_eq (txt_color : RGBColor)
  (background_color : WD_COLOR_INDEX) (para : Paragraph Props) :
  redact_paragraph finditer (@split_run_by Props) pattern replace_with
    txt_color background_color para =
  Returned
    (flat_map
       (fun run =>
          expected_runs replace_with txt_color background_color (plan_of run)
            run)
       para).
Proof.
  unfold redact_paragraph. rewrite redact_runs_prefix by lia.
  rewrite firstn_all, skipn_all, app_nil_r. reflexivity.
Qed.

Lemma expected_runs_length (txt_color : RGBColor)
  (background_color : WD_COLOR_INDEX) (run : Run Props) :
  List.length
    (expected_runs replace_with txt_color background_color (plan_of run) run) =
  Nat.max 1 (List.length (fst (plan_of run))).
Proof.
  unfold expected_runs.
  destruct (fst (plan_of run)) as [| h hs] eqn:Eh; [reflexivity |].
  assert (Hne : finditer (String.concat "|" pattern) (text run) <> []).
  { intros E. rewrite E in Eh. discriminate. }
  destruct (plan_shape (text run) Hne) as (_ & _ & Hlen).
  rewrite Eh in Hlen.
  rewrite length_map, length_combine, adjacent_length, Hlen.
  simpl List.length. lia.
Qed.

Lemma length_flat_map_sum {A B : Type} (f : A -> list B) (l : list A) :
  List.length (flat_map f l) = list_sum (map (fun x => List.length (f x)) l).
Proof.
  induction l as [| x l IH]; [reflexivity |].
  simpl. rewrite length_app, IH. reflexivity.
Qed.

(** A run in which nothing matches is passed over, whatever the splitter. *)
Lemma redact_runs_no_match
  (splitter : Paragraph Props -> nat -> list nat -> Paragraph Props * list nat)
  (txt_color : RGBColor) (background_color : WD_COLOR_INDEX)
  (para : Paragraph Props) :
  no_match finditer pattern para ->
  forall n, n <= List.length para ->
    redact_runs finditer splitter pattern replace_with txt_color
      background_color n para = Returned para.
Proof.
  intros Hno n. induction n as [| n IH]; intros Hn; [reflexivity |].
  simpl redact_runs. unfold redact_run.
  destruct (nth_error para n) as [run |] eqn:Hrun;
    [| apply nth_error_None in Hrun; lia].
  unfold no_match in Hno. rewrite Forall_forall in Hno.
  rewrite (Hno run (nth_error_In _ _ Hrun)).
  change (process_matches [] (text run)) with (@nil bool, @nil nat).
  simpl. apply IH. lia.
Qed.

(** X9: When no run of the document has a match, [redact_document] returns the
    document as it was, whatever the splitter, the replacement and the
    colour. *)
Theorem no_match_no_change
  (splitter : Paragraph Props -> nat -> list nat -> Paragraph Props * list nat)
  (doc : list (Paragraph Props)) (color : option string) :
  Forall (no_match finditer pattern) doc ->
  redact_document finditer splitter doc pattern replace_with color =
  Returned doc.
Proof.
  intros Hno. unfold redact_document.
  destruct (redact_colors color) as [txt_color background_color].
  rewrite <- (map_id doc) at 2. apply for_each_map.
  intros para Hin. unfold redact_paragraph.
  rewrite Forall_forall in Hno.
  apply redact_runs_no_match; [apply Hno, Hin | lia].
Qed.

(** X10: Runs are never removed: a paragraph comes back with one run for each run
    without a match and one run per segment for each run with matches. *)
Theorem run_count (txt_color : RGBColor) (background_color : WD_COLOR_INDEX)
  (para : Paragraph Props) :
  exists para' : Paragraph Props,
    redact_paragraph finditer (@split_run_by Props) pattern replace_with
      txt_color background_color para = Returned para' /\
    List.length para' =
    list_sum
      (map (fun run => Nat.max 1 (List.length (fst (plan_of run)))) para) /\
    List.length para <= List.length para'.
Proof.
  eexists. split; [apply redact_paragraph_eq |].
  rewrite length_flat_map_sum.
  rewrite (map_ext _ _ (expected_runs_length txt_color background_color)).
  split; [reflexivity |].
  induction para as [| run para IH]; [simpl; lia |].
  cbn [map List.length].
  change (list_sum (?a :: ?l)) with (a + list_sum l). lia.
Qed.

(** X12: Redaction goes run by run: a paragraph made of two parts comes back as
    the two parts redacted on their own, one after the other. *)
Theorem redact_paragraph_app (txt_color : RGBColor)
  (background_color : WD_COLOR_INDEX) (p1 p2 : Paragraph Props) :
  exists p1' p2' : Paragraph Props,
    redact_paragraph finditer (@split_run_by Props) pattern replace_with
      txt_color background_color p1 = Returned p1' /\
    redact_paragraph finditer (@split_run_by Props) pattern replace_with
      txt_color background_color p2 = Returned p2' /\
    redact_paragraph finditer (@split_run_by Props) pattern replace_with
      txt_color background_color (p1 ++ p2) = Returned (p1' ++ p2').
Proof.
  eexists. eexists. rewrite !redact_paragraph_eq, flat_map_app. auto.
Qed.

End Documents.

Lemma no_match_no_change_witness :
  redact_document Literal.finditer (@split_run_by unit)
    [[plain "nothing"; plain "to hide"]; []; [plain "here"]]
    ["secret"; "555-1234"] (Some "XXX") (Some "yellow") =
  Returned [[plain "nothing"; plain "to hide"]; []; [plain "here"]].
Proof.
  apply (@no_match_no_change unit Literal.finditer ["secret"; "555-1234"]
           (Some "XXX") (@split_run_by unit)
           [[plain "nothing"; plain "to hide"]; []; [plain "here"]]
           (Some "yellow")).
  repeat (apply Forall_cons || apply Forall_nil); reflexivity.
Defined.

(** * Facts about the command line *)

Section Patterns.

Lemma split_length (sep : ascii) (s : string) :
  List.length (Cli.split sep s) = S (count_char sep s).
Proof.
  induction s as [| c s IH]; [reflexivity |].
  simpl. destruct (Ascii.eqb c sep); simpl; [now rewrite IH |].
  destruct (Cli.split sep s) as [| p ps]; [discriminate | exact IH].
Qed.

Lemma split_no_sep (sep : ascii) (s : string) :
  Forall (fun p => has_char sep p = false) (Cli.split sep s).
Proof.
  induction s as [| c s IH]; [repeat constructor |].
  simpl. destruct (Ascii.eqb c sep) eqn:E.
  - constructor; [reflexivity | exact IH].
  - destruct (Cli.split sep s) as [| p ps]; [repeat constructor; simpl; now rewrite E |].
    inversion IH; subst. constructor; [simpl; rewrite E; assumption | assumption].
Qed.

Lemma split_single (sep : ascii) (p : string) :
  has_char sep p = false -> Cli.split sep p = [p].
Proof.
  induction p as [| c p IH]; intros H; [reflexivity |].
  simpl in H. apply orb_false_elim in H. destruct H as [Hc Hp].
  simpl. rewrite Hc, (IH Hp). reflexivity.
Qed.

Lemma split_append (sep : ascii) (p rest : string) :
  has_char sep p = false ->
  Cli.split sep (String.append p (String sep rest)) = p :: Cli.split sep rest.
Proof.
  induction p as [| c p IH]; intros H.
  - simpl. rewrite Ascii.eqb_refl. reflexivity.
  - simpl in H. apply orb_false_elim in H. destruct H as [Hc Hp].
    simpl. rewrite Hc, (IH Hp). reflexivity.
Qed.

Lemma split_concat (sep : ascii) (ps : list string) :
  ps <> [] ->
  Forall (fun p => has_char sep p = false) ps ->
  Cli.split sep (String.concat (String sep EmptyString) ps) = ps.
Proof.
  induction ps as [| p ps IH]; intros Hne Hall; [congruence |].
  inversion Hall as [| ? ? Hp Hps]; subst.
  destruct ps as [| q ps].
  - simpl. apply split_single, Hp.
  - change (String.concat (String sep EmptyString) (p :: q :: ps))
      with (String.append p
              (String sep (String.concat (String sep EmptyString) (q :: ps)))).
    rewrite (@split_append sep p _ Hp), IH;
      [reflexivity | discriminate | exact Hps].
Qed.

Lemma lstrip_clean (s : string) : starts_space s = false -> Cli.lstrip s = s.
Proof. destruct s as [| c s]; simpl; intros H; [| rewrite H]; reflexivity. Qed.

Lemma rstrip_clean (s : string) : ends_space s = false -> Cli.rstrip s = s.
Proof.
  induction s as [| c s IH]; intros H; [reflexivity |].
  destruct s as [| d s].
  - simpl in *. rewrite H. reflexivity.
  - change (ends_space (String c (String d s))) with (ends_space (String d s)) in H.
    change (Cli.rstrip (String c (String d s)))
      with (match Cli.rstrip (String d s) with
            | EmptyString =>
                if Cli.isspace c then EmptyString else String c EmptyString
            | String d' r => String c (String d' r)
            end).
    rewrite (IH H). reflexivity.
Qed.

Lemma lstrip_starts (s : string) : starts_space (Cli.lstrip s) = false.
Proof.
  induction s as [| c s IH]; [reflexivity |].
  simpl. destruct (Cli.isspace c) eqn:E; [exact IH | simpl; exact E].
Qed.

Lemma rstrip_ends (s : string) : ends_space (Cli.rstrip s) = false.
Proof.
  induction s as [| c s IH]; [reflexivity |].
  simpl Cli.rstrip. destruct (Cli.rstrip s) as [| d r].
  - destruct (Cli.isspace c) eqn:E; [reflexivity | simpl; exact E].
  - exact IH.
Qed.

Lemma rstrip_starts (s : string) :
  starts_space s = false -> starts_space (Cli.rstrip s) = false.
Proof.
  destruct s as [| c s]; intros H; [reflexivity |].
  simpl in H. simpl Cli.rstrip. destruct (Cli.rstrip s); rewrite ?H; exact H.
Qed.

Lemma lstrip_has_char (x : ascii) (s : string) :
  has_char x s = false -> has_char x (Cli.lstrip s) = false.
Proof.
  induction s as [| c s IH]; intros H; [reflexivity |].
  simpl. destruct (Cli.isspace c); [| exact H].
  simpl in H. apply orb_false_elim in H. apply IH, H.
Qed.

Lemma rstrip_has_char (x : ascii) (s : string) :
  has_char x s = false -> has_char x (Cli.rstrip s) = false.
Proof.
  induction s as [| c s IH]; intros H; [reflexivity |].
  simpl in H. apply orb_false_elim in H. destruct H as [Hc Hs].
  specialize (IH Hs). simpl Cli.rstrip.
  destruct (Cli.rstrip s) as [| d r].
  - destruct (Cli.isspace c); [reflexivity | simpl; rewrite Hc; reflexivity].
  - change (has_char x (String c (String d r)))
      with (Ascii.eqb c x || has_char x (String d r)).
    rewrite Hc, IH. reflexivity.
Qed.

Lemma strip_clean (s : string) :
  starts_space s = false -> ends_space s = false -> Cli.strip s = s.
Proof.
  intros Hs He. unfold Cli.strip. rewrite (@lstrip_clean s Hs).
  apply rstrip_clean, He.
Qed.

End Patterns.

(** X14: [main] passes on one pattern more than there are commas in [-p]: never
    an empty list, and a single (empty) pattern for an empty argument. *)
Theorem patterns_count (a : Cli.args) :
  List.length (Cli.parse_patterns a) =
  S (count_char ","%char (Cli.patterns a)).
Proof. unfold Cli.parse_patterns. rewrite length_map. apply split_length. Qed.

(** X15: No pattern [main] passes on contains a comma: a regular expression with
    a comma in it cannot be given on the command line as one pattern. *)
Theorem patterns_have_no_comma (a : Cli.args) :
  Forall (fun p => has_char ","%char p = false) (Cli.parse_patterns a).
Proof.
  unfold Cli.parse_patterns. apply Forall_map.
  apply Forall_impl with (2 := split_no_sep ","%char (Cli.patterns a)).
  intros p Hp. unfold Cli.strip. apply rstrip_has_char, lstrip_has_char, Hp.
Qed.

(** X16: No pattern [main] passes on begins or ends with white space. *)
Theorem patterns_are_stripped (a : Cli.args) :
  Forall (fun p => starts_space p = false /\ ends_space p = false)
    (Cli.parse_patterns a).
Proof.
  unfold Cli.parse_patterns. apply Forall_map. apply Forall_forall.
  intros p _. unfold Cli.strip. split.
  - apply rstrip_starts, lstrip_starts.
  - apply rstrip_ends.
Qed.

(** X17: Patterns with no comma and no white space at either end, joined by
    commas, come back from [main]'s parsing as they were. *)
Theorem patterns_round_trip (ps : list string) (i o : string)
  (r c : option string) :
  ps <> [] ->
  Forall (fun p => has_char ","%char p = false /\
                   starts_space p = false /\ ends_space p = false) ps ->
  Cli.parse_patterns (Cli.mkArgs i o (String.concat "," ps) r c) = ps.
Proof.
  intros Hne Hall. unfold Cli.parse_patterns. simpl Cli.patterns.
  rewrite split_concat;
    [| exact Hne | apply Forall_impl with (2 := Hall); tauto].
  rewrite <- (map_id ps) at 2. apply map_ext_in. intros p Hp.
  rewrite Forall_forall in Hall. destruct (Hall p Hp) as (_ & Hs & He).
  apply strip_clean; assumption.
Qed.

Lemma patterns_round_trip_witness :
  Cli.parse_patterns
    (Cli.mkArgs "in.docx" "out.docx"
       (String.concat "," ["555-1234"; "foo bar"; "secret"]) None None) =
  ["555-1234"; "foo bar"; "secret"].
Proof.
  apply (@patterns_round_trip ["555-1234"; "foo bar"; "secret"] "in.docx"
           "out.docx" None None).
  - discriminate.
  - repeat (apply Forall_cons; [repeat split |]); apply Forall_nil.
Defined.

(** * The calls to the splitter *)

Lemma interior_nonempty {A : Type} (l : list A) :
  3 <= List.length l -> interior l <> [].
Proof.
  destruct l as [| a [| b [| c l]]]; simpl; try lia. intros _.
  unfold interior. simpl. discriminate.
Qed.

(** X13: The splitter is only ever called with at least one cut point: two
    splitters that agree on non-empty cut lists give the same result, for
    every plan. *)
Theorem splitter_gets_cut_points (Props : Type) (replace_with : option string)
  (txt_color : RGBColor) (background_color : WD_COLOR_INDEX)
  (s1 s2 : Paragraph Props -> nat -> list nat -> Paragraph Props * list nat)
  (hs : list bool) (ms : list nat) (para : Paragraph Props) (run_index : nat) :
  (forall p i cuts, cuts <> [] -> s1 p i cuts = s2 p i cuts) ->
  apply_plan s1 replace_with txt_color background_color hs ms para run_index =
  apply_plan s2 replace_with txt_color background_color hs ms para run_index.
Proof.
  intros Hagree. unfold apply_plan.
  destruct ((0 <? List.length hs) && (0 <? List.length ms)) eqn:E0;
    [| reflexivity].
  destruct (negb (List.length hs =? List.length ms - 1)) eqn:E1;
    [reflexivity |].
  destruct (List.length ms =? 2) eqn:E2; [reflexivity |].
  apply andb_prop in E0. destruct E0 as [Eh Em].
  apply Nat.ltb_lt in Eh. apply Nat.ltb_lt in Em.
  apply negb_false_iff, Nat.eqb_eq in E1. apply Nat.eqb_neq in E2.
  rewrite (Hagree para run_index (interior ms)); [reflexivity |].
  apply interior_nonempty. lia.
Qed.

Lemma splitter_gets_cut_points_witness :
  apply_plan (@split_run_by unit) None (mkRGB 0 0 0) BLACK
    [false; true; false] [0; 5; 13; 17] [plain "call 555-1234 now"] 0 =
  apply_plan
    (fun p i cuts =>
       match cuts with
       | [] => ([], [])
       | _ :: _ => @split_run_by unit p i cuts
       end)
    None (mkRGB 0 0 0) BLACK
    [false; true; false] [0; 5; 13; 17] [plain "call 555-1234 now"] 0.
Proof.
  apply (@splitter_gets_cut_points unit None (mkRGB 0 0 0) BLACK
           (@split_run_by unit)
           (fun p i cuts =>
              match cuts with
              | [] => ([], [])
              | _ :: _ => @split_run_by unit p i cuts
              end)).
  intros p i [| c cuts] H; [congruence | reflexivity].
Defined.

(** * The visible text without a replacement *)

(** X18: Without a replacement, a paragraph whose runs have matches in order and
    within their text (empty matches allowed) reads the same after
    redaction: only colours change. *)
Theorem visible_text_unchanged (Props : Type)
  (finditer : string -> string -> list (nat * nat)) (pattern : list string)
  (txt_color : RGBColor) (background_color : WD_COLOR_INDEX)
  (para : Paragraph Props) :
  Forall
    (fun run =>
       non_overlapping (finditer (String.concat "|" pattern) (text run)) /\
       Forall (within (String.length (text run)))
         (finditer (String.concat "|" pattern) (text run)))
    para ->
  exists para' : Paragraph Props,
    redact_paragraph finditer (@split_run_by Props) pattern None txt_color
      background_color para = Returned para' /\
    visible_text para' = visible_text para.
Proof.
  intros Hwf. eexists. split; [apply redact_paragraph_eq |].
  rewrite visible_text_flat_map. unfold visible_text at 2. f_equal.
  apply map_ext_in. intros run Hin. rewrite expected_runs_text.
  rewrite Forall_forall in Hwf. destruct (Hwf run Hin) as [Hno Hw].
  rewrite (@substitute_None (text run) _ (0, 0)); simpl snd.
  - apply slice_whole.
  - destruct (finditer (String.concat "|" pattern) (text run));
      [exact I | split; [simpl; lia | exact Hno]].
  - exact Hw.
  - lia.
Qed.

Lemma visible_text_unchanged_witness :
  exists para' : Paragraph unit,
    redact_paragraph Literal.finditer (@split_run_by unit) ["secret"; "now"]
      None (mkRGB 0 0 0) BLACK
      [plain "a secretsecret"; plain "known"; plain "plain"] =
    Returned para' /\
    visible_text para' =
    visible_text [plain "a secretsecret"; plain "known"; plain "plain"].
Proof.
  apply (@visible_text_unchanged unit Literal.finditer ["secret"; "now"]
           (mkRGB 0 0 0) BLACK
           [plain "a secretsecret"; plain "known"; plain "plain"]).
  repeat (apply Forall_cons;
          [split;
           [unfold non_overlapping; simpl; lia
           | repeat (apply Forall_cons; [unfold within; simpl; lia |]);
             apply Forall_nil] |]);
  apply Forall_nil.
Defined.

(** * What the orchestrator raises *)

Section Raising.

Variable Props : Type.
Variable finditer : string -> string -> outcome (list (nat * nat)).
Variable pattern : list string.
Variable replace_with : option string.






End Raising.

(** A pattern that does not compile stops [redact_document] at the first run
    it visits: the exception is [re.error] and no document comes back. *)
Example invalid_pattern_raises :
  redact_document_re Literal.finditer_re (@split_run_by unit)
    [[plain "call 555-1234 now"]] ["("] None None =
  Raised (re_error "missing ), unterminated subpattern at position 0").
Proof. reflexivity. Qed.

(** The same pattern on a document without runs: [re.finditer] is not
    called. *)
Example invalid_pattern_unused :
  redact_document_re Literal.finditer_re (@split_run_by unit) [[]; []] ["("]
    None None =
  Returned [[]; []].
Proof. reflexivity. Qed.

(** With a matcher that returns, [redact_document_re] is [redact_document]. *)
Example valid_pattern_agrees :
  redact_document_re Literal.finditer_re (@split_run_by unit)
    [[plain "call 555-1234 now"]; [plain "none"]] ["555-1234"] (Some "XXX")
    None =
  redact_document Literal.finditer (@split_run_by unit)
    [[plain "call 555-1234 now"]; [plain "none"]] ["555-1234"] (Some "XXX")
    None.
Proof. reflexivity. Qed.

(** * What the orchestrator itself writes *)

Section OwnWrites.

Variable Props : Type.
Variable replace_with : option string.
Variable txt_color : RGBColor.
Variable background_color : WD_COLOR_INDEX.

Local Abbreviation paint :=
  (highlight_run (Props := Props) replace_with txt_color background_color).




End OwnWrites.

(** * The two embeddings of the loop *)

Section Agreement.

Variable Props : Type.
Variable f : string -> string -> list (nat * nat).
Variable splitter :
  Paragraph Props -> nat -> list nat -> Paragraph Props * list nat.
Variable pattern : list string.
Variable replace_with : option string.

Lemma for_each_ext {A : Type} (g h : A -> outcome A) (l : list A) :
  (forall x, g x = h x) -> for_each g l = for_each h l.
Proof.
  intros Hgh. induction l as [| x l IH]; [reflexivity |].
  simpl. rewrite Hgh, IH. reflexivity.
Qed.

Lemma redact_runs_re_agrees (txt_color : RGBColor)
  (background_color : WD_COLOR_INDEX) (n : nat) :
  forall para : Paragraph Props,
    redact_runs_re (fun p t => Returned (f p t)) splitter pattern replace_with
      txt_color background_color n para =
    redact_runs f splitter pattern replace_with txt_color background_color n
      para.
Proof.
  induction n as [| n IH]; intros para; [reflexivity |].
  simpl.
  assert (Hrun :
    redact_run_re (fun p t => Returned (f p t)) splitter pattern replace_with
      txt_color background_color para n =
    redact_run f splitter pattern replace_with txt_color background_color
      para n).
  { unfold redact_run_re, redact_run.
    destruct (nth_error para n); reflexivity. }
  rewrite Hrun.
  destruct (redact_run f splitter pattern replace_with txt_color
              background_color para n) as [para' | e];
    [apply IH | reflexivity].
Qed.

(** Whenever [re.finditer] returns, the orchestrator with a matcher that may
    raise is the orchestrator of the claims: what is proved of the one holds
    of the other. *)
Lemma redact_document_re_agrees (doc : list (Paragraph Props))
  (color : option string) :
  redact_document_re (fun p t => Returned (f p t)) splitter doc pattern
    replace_with color =
  redact_document f splitter doc pattern replace_with color.
Proof.
  unfold redact_document_re, redact_document.
  destruct (redact_colors color) as [txt_color background_color].
  apply for_each_ext. intros para. apply redact_runs_re_agrees.
Qed.

End Agreement.
